(** * here_travel_time/sensor.py: a shallow embedding

    The sensor resolves two location references, skips the routing call when
    the two points are closer than [_min_distance], otherwise queries the
    routing service and stores the rounded number of minutes.

    Conventions of the embedding.
    - Python exceptions are values of [exn]; a computation that may raise
      returns [result].
    - The sensor object is a record that is threaded through [update]; the
      HTTP calls issued so far are kept next to it, so that "no call was
      issued" is a statement about that log.
    - Python floats are represented by rationals ([Q]).  The geodesic
      distance of geopy and the duration parser of isodate are libraries
      outside the repository: [update] takes them as parameters. *)

From Stdlib Require Import ZArith QArith Bool List Ascii String Lia.
Import ListNotations.

Open Scope string_scope.
Open Scope Z_scope.

(** ** Exceptions and results *)

Inductive exn : Type :=
| AttributeError
| TypeError
| KeyError
| IndexError
| ValueError
| ISO8601Error
| RequestException.

Inductive result (A : Type) : Type :=
| Ok (a : A)
| Raise (e : exn).
Arguments Ok {A} a.
Arguments Raise {A} e.

(** ** Strings *)

Module Str.

Definition is_digit (c : ascii) : bool :=
  let n := nat_of_ascii c in (48 <=? n)%nat && (n <=? 57)%nat.

(** Longest prefix of ASCII digits, and what follows it. *)
Fixpoint span_digits (s : string) : string * string :=
  match s with
  | String c s' =>
      if is_digit c
      then let (ds, r) := span_digits s' in (String c ds, r)
      else (EmptyString, s)
  | EmptyString => (EmptyString, EmptyString)
  end.

Definition is_empty (s : string) : bool :=
  match s with EmptyString => true | _ => false end.

Fixpoint all_digits (s : string) : bool :=
  match s with
  | EmptyString => true
  | String c s' => is_digit c && all_digits s'
  end.

(** [s.split(sep, 1)]: the text before the first [sep] and the text
    after it, when [sep] occurs. *)
Fixpoint split1 (sep : ascii) (s : string) : string * option string :=
  match s with
  | EmptyString => (EmptyString, None)
  | String c s' =>
      if Ascii.eqb c sep then (EmptyString, Some s')
      else let (a, b) := split1 sep s' in (String c a, b)
  end.

(** [s.startswith(p)] *)
Definition startswith (p s : string) : bool := String.prefix p s.

(** [s.replace(a, b)] for single characters. *)
Fixpoint replace_char (a b : ascii) (s : string) : string :=
  match s with
  | EmptyString => EmptyString
  | String c s' => String (if Ascii.eqb c a then b else c) (replace_char a b s')
  end.

Definition lower_char (c : ascii) : ascii :=
  let n := nat_of_ascii c in
  if (65 <=? n)%nat && (n <=? 90)%nat then ascii_of_nat (n + 32) else c.

(** [s.lower()] on ASCII text. *)
Fixpoint lower (s : string) : string :=
  match s with
  | EmptyString => EmptyString
  | String c s' => String (lower_char c) (lower s')
  end.

(** [needle in haystack] for two strings. *)
Fixpoint contains (needle hay : string) : bool :=
  String.prefix needle hay ||
  match hay with
  | EmptyString => false
  | String _ hay' => contains needle hay'
  end.

Definition digit_val (c : ascii) : Z := Z.of_nat (nat_of_ascii c) - 48.

(** Value of a string of decimal digits, most significant first. *)
Fixpoint nat_value_from (acc : Z) (s : string) : Z :=
  match s with
  | EmptyString => acc
  | String c s' => nat_value_from (10 * acc + digit_val c) s'
  end.

Definition nat_value (s : string) : Z := nat_value_from 0 s.

End Str.

(** ** COORD_PATTERN and get_lat_long *)

(** One number of the pattern, [[0-9]+(?:\.[0-9]+)?], matched at the start
    of [s]: the text matched and the rest.  The digits are taken greedily;
    the fractional part is taken when a dot and at least one digit follow. *)
Definition match_number (s : string) : option (string * string) :=
  let (ds, r) := Str.span_digits s in
  if Str.is_empty ds then None
  else match r with
       | String c r' =>
           if Ascii.eqb c "."%char then
             let (fs, r'') := Str.span_digits r' in
             if Str.is_empty fs then Some (ds, r)
             else Some (ds ++ "." ++ fs, r'')
           else Some (ds, r)
       | EmptyString => Some (ds, r)
       end.

(** [COORD_PATTERN.match(s)]: the pattern
    [([0-9]+(?:\.[0-9]+)?),([0-9]+(?:\.[0-9]+)?)] anchored at the start of
    [s] only.  The result holds groups 1 and 2 and the unmatched rest;
    [None] is Python's [None] (no match). *)
Definition COORD_PATTERN_match (s : string) : option (string * string * string) :=
  match match_number s with
  | Some (g1, String c r) =>
      if Ascii.eqb c ","%char then
        match match_number r with
        | Some (g2, rest) => Some (g1, g2, rest)
        | None => None
        end
      else None
  | _ => None
  end.

(** [float(text)] for a text of the shape [digits] or [digits.digits], as
    the rational it denotes. *)
Definition float_of_decimal (text : string) : Q :=
  match Str.split1 "."%char text with
  | (ip, None) => inject_Z (Str.nat_value ip)
  | (ip, Some fp) =>
      Qmake (Str.nat_value (ip ++ fp)) (Pos.pow 10 (Pos.of_nat (String.length fp)))
  end.

Definition coords : Type := Q * Q.

(** [get_lat_long]: [m.group(1)] on [m = None] raises AttributeError. *)
Definition get_lat_long (string_value : string) : result coords :=
  match COORD_PATTERN_match string_value with
  | None => Raise AttributeError
  | Some (g1, g2, _) => Ok (float_of_decimal g1, float_of_decimal g2)
  end.


(** ** Values decoded from JSON *)

Set Warnings "-register-all".

(** What [response.json()] returns: Python values built from [None],
    booleans, numbers, strings, lists and dictionaries with string keys.  A
    dictionary is an association list read by its first binding of a key. *)
Inductive pyval : Type :=
| PyNone
| PyBool (b : bool)
| PyInt (n : Z)
| PyFloat (q : Q)
| PyStr (s : string)
| PyList (items : list pyval)
| PyDict (fields : list (string * pyval)).

Fixpoint assoc {V : Type} (k : string) (kvs : list (string * V)) : option V :=
  match kvs with
  | [] => None
  | (k', v) :: kvs' => if String.eqb k k' then Some v else assoc k kvs'
  end.

Definition is_key {V : Type} (k : string) (kvs : list (string * V)) : bool :=
  match assoc k kvs with Some _ => true | None => false end.

Definition pystr_eqb (k : string) (v : pyval) : bool :=
  match v with PyStr s => String.eqb k s | _ => false end.

(** [k in v] for a string [k]: key membership in a dictionary, element
    membership in a list, substring test in a string, TypeError for the
    values that are not containers. *)
Definition py_in (k : string) (v : pyval) : result bool :=
  match v with
  | PyDict fields => Ok (is_key k fields)
  | PyList items => Ok (existsb (pystr_eqb k) items)
  | PyStr s => Ok (Str.contains k s)
  | _ => Raise TypeError
  end.

(** [v[k]] for a string [k]. *)
Definition py_getitem (v : pyval) (k : string) : result pyval :=
  match v with
  | PyDict fields =>
      match assoc k fields with Some x => Ok x | None => Raise KeyError end
  | _ => Raise TypeError
  end.

(** [len(v)] *)
Definition py_len (v : pyval) : result Z :=
  match v with
  | PyDict fields => Ok (Z.of_nat (List.length fields))
  | PyList items => Ok (Z.of_nat (List.length items))
  | PyStr s => Ok (Z.of_nat (String.length s))
  | _ => Raise TypeError
  end.

(** [v[0]]: a dictionary decoded from JSON has no integer key. *)
Definition py_getitem0 (v : pyval) : result pyval :=
  match v with
  | PyList (x :: _) => Ok x
  | PyList [] => Raise IndexError
  | PyStr (String c _) => Ok (PyStr (String c EmptyString))
  | PyStr EmptyString => Raise IndexError
  | PyDict _ => Raise KeyError
  | _ => Raise TypeError
  end.

(** ** datetime.timedelta *)

(** A timedelta is determined by its total number of microseconds; Python
    stores it normalised as days, seconds in [0, 86400) and microseconds in
    [0, 10^6), which the accessors below compute. *)
Inductive timedelta : Type := Timedelta_us (total : Z).

Definition total_us (td : timedelta) : Z := let (t) := td in t.

Definition td_days (td : timedelta) : Z := total_us td / 86400000000.
Definition td_seconds (td : timedelta) : Z := (total_us td / 1000000) mod 86400.
Definition td_microseconds (td : timedelta) : Z := total_us td mod 1000000.

(** Whole seconds of the full duration ([total_seconds()], floored). *)
Definition td_total_seconds (td : timedelta) : Z := total_us td / 1000000.

(** [timedelta(weeks=, days=, hours=, minutes=, seconds=)] on integers. *)
Definition mk_timedelta (weeks days hours minutes seconds : Z) : timedelta :=
  Timedelta_us
    (1000000 * ((((weeks * 7 + days) * 24 + hours) * 60 + minutes) * 60 + seconds)).

Definition td_neg (td : timedelta) : timedelta := Timedelta_us (- total_us td).

(** [round(n / d)] for integers [n] and [d > 0]: Python 3 divides to a float
    and [round] without digits returns the nearest integer, a tie going to
    the even neighbour.  For [0 <= n < 86400] and [d = 60] the float
    quotient is exact at a tie and off a tie by far less than its distance
    to one, so rounding the exact quotient gives the same integer. *)
Definition py_round_div (n d : Z) : Z :=
  let q := n / d in
  let r := n mod d in
  if 2 * r <? d then q
  else if d <? 2 * r then q + 1
  else if Z.even q then q else q + 1.

(** ** The host's state machine *)

Module Host.

Inductive attr_value : Type :=
| ANumber (text : string)   (* an int or float, with its [str()] *)
| AString (s : string)
| ANone.

(** A [State] of the host: entity id, state string and attributes. *)
Record State : Type := {
  entity_id : string;
  state : string;
  attributes : list (string * attr_value);
  }.

Definition ATTR_LATITUDE := "latitude".
Definition ATTR_LONGITUDE := "longitude".
Definition ATTR_FRIENDLY_NAME := "friendly_name".

(** [state.domain] and [state.object_id]: the entity id split at its first
    dot. *)
Definition domain (e : State) : string := fst (Str.split1 "."%char (entity_id e)).

Definition object_id (e : State) : string :=
  match snd (Str.split1 "."%char (entity_id e)) with
  | Some o => o
  | None => EmptyString
  end.

(** [state.name], that is [attributes.get(ATTR_FRIENDLY_NAME) or
    object_id.replace('_', ' ')]: the friendly name when it is a non-empty
    string, else the object id with underscores turned into spaces.  The
    host keeps friendly names as strings; a friendly name of another type
    is outside this model. *)
Definition name (e : State) : string :=
  match assoc ATTR_FRIENDLY_NAME (attributes e) with
  | Some (AString (String c s)) => String c s
  | _ => Str.replace_char "_"%char " "%char (object_id e)
  end.

(** The host: its states in the order [states.all()] lists them. *)
Definition Hass : Type := list State.

Definition states_all (hass : Hass) : list State := hass.

(** [hass.states.get(entity_id)] looks the lower-cased id up. *)
Definition states_get (hass : Hass) (id : string) : option State :=
  find (fun e => String.eqb (entity_id e) (Str.lower id)) hass.

Definition is_number (v : option attr_value) : bool :=
  match v with Some (ANumber _) => true | _ => false end.

(** [location.has_location(state)]: a state whose latitude and longitude
    attributes are both numbers; [None] is not a state. *)
Definition has_location (st : option State) : bool :=
  match st with
  | Some e => is_number (assoc ATTR_LATITUDE (attributes e))
              && is_number (assoc ATTR_LONGITUDE (attributes e))
  | None => false
  end.

(** ["%s" % v] for the value [attr.get(key)] returns. *)
Definition format_s (v : option attr_value) : string :=
  match v with
  | Some (ANumber text) => text
  | Some (AString s) => s
  | Some ANone => "None"
  | None => "None"
  end.

End Host.

(** ** The sensor *)

Definition TRACKABLE_DOMAINS : list string := ["device_tracker"; "sensor"; "zone"].
Definition DEFAULT_NAME : string := "Here Travel Time".
Definition CONF_MIN_DISTANCE_default : Z := 100.

(** The query of the one GET request [update] issues. *)
Record Request : Type := {
  app_id : string;
  app_code : string;
  routing : string;
  dep : string;
  arr : string;
  time : string;
  max : Z;
  details : Z;
}.

(** What the outside world answers during one call of [update]: the host's
    states, the clock, and the outcome of the GET request ([req.get] raises,
    or returns a response whose [json()] raises or returns a value). *)
Record Response : Type := { json : result pyval }.

Record World : Type := {
  hass : Host.Hass;
  now_isoformat : string;
  req_get : Request -> result (option Response);
}.

(** The attributes of a [HereTravelTimeSensor].  [_origin_entity_id] and
    [_destination_entity_id] are [None] when the object has no such
    attribute; [_origin], [_destination] and [_state] hold Python's [None]
    as [None]. *)
Record Sensor : Type := {
  _name : string;
  _app_id : string;
  _app_code : string;
  _unit_of_measurement : string;
  _state : option Z;
  _min_distance : Z;
  valid_api_connection : bool;
  _origin_entity_id : option string;
  _origin : option string;
  _destination_entity_id : option string;
  _destination : option string;
}.

Definition set_state (v : option Z) (s : Sensor) : Sensor :=
  {| _name := _name s; _app_id := _app_id s; _app_code := _app_code s;
     _unit_of_measurement := _unit_of_measurement s; _state := v;
     _min_distance := _min_distance s;
     valid_api_connection := valid_api_connection s;
     _origin_entity_id := _origin_entity_id s; _origin := _origin s;
     _destination_entity_id := _destination_entity_id s;
     _destination := _destination s |}.

Definition set_valid_api_connection (b : bool) (s : Sensor) : Sensor :=
  {| _name := _name s; _app_id := _app_id s; _app_code := _app_code s;
     _unit_of_measurement := _unit_of_measurement s; _state := _state s;
     _min_distance := _min_distance s;
     valid_api_connection := b;
     _origin_entity_id := _origin_entity_id s; _origin := _origin s;
     _destination_entity_id := _destination_entity_id s;
     _destination := _destination s |}.

Definition set_origin (v : option string) (s : Sensor) : Sensor :=
  {| _name := _name s; _app_id := _app_id s; _app_code := _app_code s;
     _unit_of_measurement := _unit_of_measurement s; _state := _state s;
     _min_distance := _min_distance s;
     valid_api_connection := valid_api_connection s;
     _origin_entity_id := _origin_entity_id s; _origin := v;
     _destination_entity_id := _destination_entity_id s;
     _destination := _destination s |}.

Definition set_destination (v : option string) (s : Sensor) : Sensor :=
  {| _name := _name s; _app_id := _app_id s; _app_code := _app_code s;
     _unit_of_measurement := _unit_of_measurement s; _state := _state s;
     _min_distance := _min_distance s;
     valid_api_connection := valid_api_connection s;
     _origin_entity_id := _origin_entity_id s; _origin := _origin s;
     _destination_entity_id := _destination_entity_id s;
     _destination := v |}.

(** *** Methods as state transformers *)

(** The memory a method works on: the object and the requests sent so far. *)
Record Mem : Type := { self : Sensor; http_log : list Request }.

(** A method body: it ends normally with a value or raises, and in both
    cases leaves a memory behind. *)
Definition M (A : Type) : Type := Mem -> result A * Mem.

Definition ret {A} (a : A) : M A := fun m => (Ok a, m).

Definition bind {A B} (c : M A) (k : A -> M B) : M B :=
  fun m => match c m with
           | (Ok a, m') => k a m'
           | (Raise e, m') => (Raise e, m')
           end.

Definition lift {A} (r : result A) : M A := fun m => (r, m).

Definition get_self : M Sensor := fun m => (Ok (self m), m).

Definition modify_self (f : Sensor -> Sensor) : M unit :=
  fun m => (Ok tt, {| self := f (self m); http_log := http_log m |}).

Declare Scope method_scope.
Delimit Scope method_scope with method.
Notation "x <- c ;; k" := (bind c (fun x => k))
  (at level 61, c at next level, right associativity) : method_scope.
Notation "c ;; k" := (bind c (fun _ => k))
  (at level 61, right associativity) : method_scope.
Open Scope method_scope.

(** [_get_location_from_attributes]: ["%s,%s"] of the two attributes, a
    missing one being Python's [None]. *)
Definition _get_location_from_attributes (entity : Host.State) : string :=
  let attr := Host.attributes entity in
  Host.format_s (assoc Host.ATTR_LATITUDE attr) ++ ","
  ++ Host.format_s (assoc Host.ATTR_LONGITUDE attr).

(** [_resolve_zone]: the first zone, in the host's enumeration order, whose
    name equals [friendly_name] gives its formatted attributes; without one
    the argument is returned.  A state's name is a string, so it equals no
    [None]. *)
Definition zone_named (friendly_name : string) (entity : Host.State) : bool :=
  String.eqb (Host.domain entity) "zone"
  && String.eqb (Host.name entity) friendly_name.

Fixpoint resolve_zone_loop (entities : list Host.State) (friendly_name : string)
  : option string :=
  match entities with
  | [] => None
  | entity :: entities' =>
      if zone_named friendly_name entity
      then Some (_get_location_from_attributes entity)
      else resolve_zone_loop entities' friendly_name
  end.

Definition _resolve_zone (hass : Host.Hass) (friendly_name : option string)
  : option string :=
  match friendly_name with
  | None => None
  | Some v =>
      match resolve_zone_loop (Host.states_all hass) v with
      | Some location => Some location
      | None => Some v
      end
  end.

(** [_get_location_from_entity].  Where [has_location(zone_entity)] holds,
    [zone_entity] is a state; reading the attributes of [None] would raise
    AttributeError. *)
Definition _get_location_from_entity (hass : Host.Hass) (entity_id : string)
  : M (option string) :=
  match Host.states_get hass entity_id with
  | None =>
      modify_self (set_valid_api_connection false) ;;
      ret None
  | Some entity =>
      if Host.has_location (Some entity)
      then ret (Some (_get_location_from_attributes entity))
      else
        let zone_entity := Host.states_get hass ("zone." ++ Host.state entity) in
        if Host.has_location zone_entity
        then match zone_entity with
             | Some z => ret (Some (_get_location_from_attributes z))
             | None => lift (Raise AttributeError)
             end
        else if Str.startswith "sensor." entity_id
        then ret (Some (Host.state entity))
        else ret None
  end.

(** [x < y] on numbers. *)
Definition Qlt_bool (x y : Q) : bool := negb (Qle_bool y x).

(** [req.get(url, params=r)]: the request is issued, then answered or
    failed by the world. *)
Definition send (w : World) (r : Request) : M (option Response) :=
  fun m => (req_get w r, {| self := self m; http_log := http_log m ++ [r] |}).

(** [origin.split('.', 1)[0] in TRACKABLE_DOMAINS] *)
Definition is_trackable (location : string) : bool :=
  existsb (String.eqb (fst (Str.split1 "."%char location))) TRACKABLE_DOMAINS.

(** The validated platform configuration: [name] is optional without a
    default, [minimum_distance] has been given its default by the schema. *)
Record Config : Type := {
  CONF_APP_ID : string;
  CONF_APP_CODE : string;
  CONF_DESTINATION : string;
  CONF_ORIGIN : string;
  CONF_NAME : option string;
  CONF_MIN_DISTANCE : Z;
}.

(** What [run_setup] leaves behind: the sensors in [hass.data[DATA_KEY]],
    the sensors handed to [add_devices], and the requests sent. *)
Record Setup : Type := {
  data : list Sensor;
  added_devices : list Sensor;
  requests : list Request;
}.

(** [config.get(CONF_NAME, 'Here Public Transport')] *)
Definition config_get_name (config : Config) : string :=
  match CONF_NAME config with
  | Some n => n
  | None => "Here Public Transport"
  end.

Section Libraries.

(** [geopy.distance.vincenty(p, q).meters]; it raises ValueError when its
    iteration does not converge. *)
Variable vincenty : coords -> coords -> result Q.

(** [isodate.parse_duration] on a string, as the timedelta it returns (the
    timedelta part for a duration with years or months). *)
Variable parse_duration_str : string -> result timedelta.

(** [isodate.parse_duration] raises TypeError unless given a string. *)
Definition parse_duration (v : pyval) : result timedelta :=
  match v with
  | PyStr s => parse_duration_str s
  | _ => Raise TypeError
  end.

(** Lines 166-179 of [update]: reading the decoded response [d].  The
    source evaluates [d['Res']['Connections']['Connection']] again at each
    use; the lookups have no effect, so each is bound once. *)
Definition read_response (d : pyval) : M unit :=
  has_res <- lift (py_in "Res" d) ;;
  if negb has_res then modify_self (set_state None) else
  res <- lift (py_getitem d "Res") ;;
  has_conns <- lift (py_in "Connections" res) ;;
  if negb has_conns then modify_self (set_state None) else
  conns <- lift (py_getitem res "Connections") ;;
  has_conn <- lift (py_in "Connection" conns) ;;
  if negb has_conn then modify_self (set_state None) else
  conn <- lift (py_getitem conns "Connection") ;;
  n <- lift (py_len conn) ;;
  if n =? 0 then modify_self (set_state None) else
  first <- lift (py_getitem0 conn) ;;
  has_duration <- lift (py_in "duration" first) ;;
  if negb has_duration then modify_self (set_state None) else
  duration <- lift (py_getitem first "duration") ;;
  td <- lift (parse_duration duration) ;;
  modify_self (set_state (Some (py_round_div (td_seconds td) 60))).

(** Lines 141-179 of [update], entered with both locations resolved. *)
Definition gate_and_fetch (w : World) (origin destination : string) : M unit :=
  o <- lift (get_lat_long origin) ;;
  d <- lift (get_lat_long destination) ;;
  distance <- lift (vincenty o d) ;;
  this <- get_self ;;
  if Qlt_bool distance (inject_Z (_min_distance this))
  then modify_self (set_state None)
  else
    response <- send w {| app_id := _app_id this;
                          app_code := _app_code this;
                          routing := "all";
                          dep := origin;
                          arr := destination;
                          time := now_isoformat w;
                          max := 1;
                          details := 0 |} ;;
    match response with
    | Some r => d <- lift (json r) ;; read_response d
    | None => ret tt
    end.

(** Lines 128-139 of [update]: both locations are read again from their
    entities, when they have one, and then passed through the zones. *)
Definition resolve_locations (w : World) : M unit :=
  this <- get_self ;;
  match _origin_entity_id this with
  | Some id =>
      location <- _get_location_from_entity (hass w) id ;;
      modify_self (set_origin location)
  | None => ret tt
  end ;;
  this <- get_self ;;
  match _destination_entity_id this with
  | Some id =>
      location <- _get_location_from_entity (hass w) id ;;
      modify_self (set_destination location)
  | None => ret tt
  end ;;
  this <- get_self ;;
  modify_self (set_destination (_resolve_zone (hass w) (_destination this))) ;;
  this <- get_self ;;
  modify_self (set_origin (_resolve_zone (hass w) (_origin this))).

(** [update], the body under the throttle. *)
Definition update (w : World) : M unit :=
  resolve_locations w ;;
  this <- get_self ;;
  match _destination this, _origin this with
  | Some destination, Some origin => gate_and_fetch w origin destination
  | _, _ => ret tt
  end.

(** Lines 82-100 of [__init__]: the object before its first update. *)
Definition new_sensor (name app_id app_code origin destination : string)
           (min_distance : Z) : Sensor :=
  {| _name := name; _app_id := app_id; _app_code := app_code;
     _unit_of_measurement := "min"; _state := None;
     _min_distance := min_distance; valid_api_connection := true;
     _origin_entity_id := if is_trackable origin then Some origin else None;
     _origin := if is_trackable origin then None else Some origin;
     _destination_entity_id :=
       if is_trackable destination then Some destination else None;
     _destination :=
       if is_trackable destination then None else Some destination |}.

(** [HereTravelTimeSensor.__init__]: the object built, and the requests
    its first update sent.  The [try] around the first update turns an
    exception into [valid_api_connection = False]. *)
Definition __init__ (w : World) (name app_id app_code origin destination : string)
           (min_distance : Z) : Mem :=
  let this := new_sensor name app_id app_code origin destination min_distance in
  match update w {| self := this; http_log := [] |} with
  | (Ok _, m) => m
  | (Raise exc, m) =>
      {| self := set_valid_api_connection false (self m);
         http_log := http_log m |}
  end.

(** [run_setup], with [data0] the sensors already in [hass.data[DATA_KEY]]
    (empty when the key was not there yet). *)
Definition run_setup (w : World) (config : Config) (data0 : list Sensor) : Setup :=
  let name := config_get_name config in
  let m := __init__ w name (CONF_APP_ID config) (CONF_APP_CODE config)
                    (CONF_ORIGIN config) (CONF_DESTINATION config)
                    (CONF_MIN_DISTANCE config) in
  let sensor := self m in
  {| data := data0 ++ [sensor];
     added_devices := if valid_api_connection sensor then [sensor] else [];
     requests := http_log m |}.

(** The update [__init__] runs for a configuration, on the fresh object. *)
Definition first_update (w : World) (config : Config) : result unit * Mem :=
  update w {| self := new_sensor (config_get_name config) (CONF_APP_ID config)
                        (CONF_APP_CODE config) (CONF_ORIGIN config)
                        (CONF_DESTINATION config) (CONF_MIN_DISTANCE config);
              http_log := [] |}.

(** The memory after construction and then one update per world of [ws],
    whether an update raises or not. *)
Definition after_updates (m : Mem) (ws : list World) : Mem :=
  fold_left (fun m w => snd (update w m)) ws m.

End Libraries.

(** The properties the host reads. *)
Definition name (s : Sensor) : string := _name s.
Definition state (s : Sensor) : option Z := _state s.
Definition unit_of_measurement (s : Sensor) : string := _unit_of_measurement s.

(** ** Instances of the two libraries for worked examples *)

(** One optional field [digits designator] of a duration. *)
Definition take_field (designator : ascii) (s : string) : Z * string :=
  let (ds, r) := Str.span_digits s in
  match r with
  | String c r' =>
      if negb (Str.is_empty ds) && Ascii.eqb c designator
      then (Str.nat_value ds, r')
      else (0, s)
  | EmptyString => (0, s)
  end.

(** [isodate.parse_duration] on the durations [[+-]P[nW][nD][T[nH][nM][nS]]]
    with integer fields.  isodate accepts more (years, months, fractions, a
    date-like form); here every other string is reported as ISO8601Error,
    so this function stands for the library only on the strings above. *)
Definition parse_duration_basic (s : string) : result timedelta :=
  let (negative, s0) :=
    match s with
    | String "-"%char r => (true, r)
    | String "+"%char r => (false, r)
    | _ => (false, s)
    end in
  match s0 with
  | String "P"%char (String c r as body) =>
      let (weeks, s1) := take_field "W"%char body in
      let (days, s2) := take_field "D"%char s1 in
      let finish hours minutes seconds :=
        let td := mk_timedelta weeks days hours minutes seconds in
        Ok (if negative then td_neg td else td) in
      match s2 with
      | EmptyString => finish 0 0 0
      | String "T"%char s3 =>
          let (hours, s4) := take_field "H"%char s3 in
          let (minutes, s5) := take_field "M"%char s4 in
          let (seconds, s6) := take_field "S"%char s5 in
          if Str.is_empty s6 then finish hours minutes seconds
          else Raise ISO8601Error
      | _ => Raise ISO8601Error
      end
  | _ => Raise ISO8601Error
  end.

(** A distance for the worked examples, in metres: 0 between equal points,
    as geopy gives, and 394 km between any others, which is about the
    distance between the two points the examples use, (52.1, 4.3) and
    (48.8, 2.3). *)
Definition vincenty_example (p q : coords) : result Q :=
  if Qeq_bool (fst p) (fst q) && Qeq_bool (snd p) (snd q)
  then Ok 0%Q else Ok 394000%Q.

Module Examples.

Definition route (duration : string) : pyval :=
  PyDict [("Res", PyDict [("Connections",
    PyDict [("Connection", PyList [PyDict [("duration", PyStr duration)]])])])].

Definition answering (states : Host.Hass) (body : pyval) : World :=
  {| hass := states; now_isoformat := "2019-03-01T08:00:00";
     req_get := fun _ => Ok (Some {| json := Ok body |}) |}.

Definition phone_at (lat long : string) : Host.State :=
  {| Host.entity_id := "device_tracker.phone"; Host.state := "not_home";
     Host.attributes := [("latitude", Host.ANumber lat); ("longitude", Host.ANumber long)] |}.

Definition phone_lost : Host.State :=
  {| Host.entity_id := "device_tracker.phone"; Host.state := "not_home";
     Host.attributes := [] |}.

Definition zone_home : Host.State :=
  {| Host.entity_id := "zone.home"; Host.state := "zoning";
     Host.attributes := [("friendly_name", Host.AString "Home");
                         ("latitude", Host.ANumber "52.0"); ("longitude", Host.ANumber "4.0")] |}.

Definition zone_bare : Host.State :=
  {| Host.entity_id := "zone.work"; Host.state := "zoning";
     Host.attributes := [("friendly_name", Host.AString "Work")] |}.

Definition sensor_place : Host.State :=
  {| Host.entity_id := "sensor.place"; Host.state := "Amsterdam";
     Host.attributes := [] |}.

Definition config (origin destination : string) (name : option string) : Config :=
  {| CONF_APP_ID := "id"; CONF_APP_CODE := "code";
     CONF_DESTINATION := destination; CONF_ORIGIN := origin;
     CONF_NAME := name; CONF_MIN_DISTANCE := CONF_MIN_DISTANCE_default |}.

Definition setup := run_setup vincenty_example parse_duration_basic.
Definition upd := update vincenty_example parse_duration_basic.

End Examples.

(** ** The spec's wording, for comparison with the code *)

Module Spec.

Definition digits (t : string) : bool :=
  negb (Str.is_empty t) && Str.all_digits t.

(** "digits[.digits]" *)
Definition decimal (t : string) : bool :=
  match Str.split1 "."%char t with
  | (ip, None) => digits ip
  | (ip, Some fp) => digits ip && digits fp
  end.

(** "both values must match digits[.digits],digits[.digits]": the whole
    text is one decimal, a comma, one decimal. *)
Definition coordinates (s : string) : bool :=
  match Str.split1 ","%char s with
  | (a, Some b) => decimal a && decimal b
  | (_, None) => false
  end.

(** Some prefix of the text is of that form. *)
Definition coordinates_prefix (s : string) : bool :=
  existsb (fun n => coordinates (substring 0 n s)) (seq 0 (S (String.length s))).

(** "convert to whole seconds, divide by 60, round to nearest integer",
    with ties to even. *)
Definition minutes (td : timedelta) : Z := py_round_div (td_total_seconds td) 60.

(** A response body that is an object in which the key [Res] is missing,
    or whose [Res] is an object in which [Connections] is missing, or whose
    [Connections] is an object in which [Connection] is missing, or in
    which the connection list is empty, or a list whose first connection is
    an object without a [duration] field.  A value of another type in one
    of these places is not covered. *)
Inductive incomplete : pyval -> Prop :=
| no_Res d :
    assoc "Res" d = None -> incomplete (PyDict d)
| no_Connections d res :
    assoc "Res" d = Some (PyDict res) ->
    assoc "Connections" res = None -> incomplete (PyDict d)
| no_Connection d res conns :
    assoc "Res" d = Some (PyDict res) ->
    assoc "Connections" res = Some (PyDict conns) ->
    assoc "Connection" conns = None -> incomplete (PyDict d)
| empty_Connection d res conns :
    assoc "Res" d = Some (PyDict res) ->
    assoc "Connections" res = Some (PyDict conns) ->
    assoc "Connection" conns = Some (PyList []) -> incomplete (PyDict d)
| no_duration d res conns first others :
    assoc "Res" d = Some (PyDict res) ->
    assoc "Connections" res = Some (PyDict conns) ->
    assoc "Connection" conns = Some (PyList (PyDict first :: others)) ->
    assoc "duration" first = None -> incomplete (PyDict d).

(** "state is either None or a non-negative integer number of minutes" *)
Definition published (st : option Z) : Prop :=
  match st with
  | None => True
  | Some n => 0 <= n
  end.

End Spec.

(** ** Predicates and abbreviations used in the statements *)

(** What a method may change besides the sensor's state and flag. *)
Definition same_setup (s s' : Sensor) : Prop :=
  _name s' = _name s /\ _app_id s' = _app_id s /\ _app_code s' = _app_code s /\
  _unit_of_measurement s' = _unit_of_measurement s /\
  _min_distance s' = _min_distance s /\
  _origin_entity_id s' = _origin_entity_id s /\
  _destination_entity_id s' = _destination_entity_id s.

(** Methods that never raise, and relations that methods keep. *)
Definition never_raises {A} (c : M A) : Prop :=
  forall m, exists a, fst (c m) = Ok a.

Definition keeps {A} (R : Mem -> Mem -> Prop) (c : M A) : Prop :=
  forall m, R m (snd (c m)).

Record preorder (R : Mem -> Mem -> Prop) : Prop := {
  pre_refl : forall m, R m m;
  pre_trans : forall a b c, R a b -> R b c -> R a c;
}.

(** The memory [resolve_locations] leaves. *)
Definition resolved (w : World) (m : Mem) : Mem := snd (resolve_locations w m).

(** What [resolve_locations] leaves alone: the state, the request log and
    the configuration of the sensor; the flag can only go down. *)
Definition resolution_frame (m m' : Mem) : Prop :=
  _state (self m') = _state (self m) /\
  http_log m' = http_log m /\
  same_setup (self m) (self m') /\
  (valid_api_connection (self m') = true -> valid_api_connection (self m) = true).

(** The request [update] sends for a sensor and two resolved locations. *)
Definition request_of (w : World) (s : Sensor) (origin destination : string)
  : Request :=
  {| app_id := _app_id s; app_code := _app_code s; routing := "all";
     dep := origin; arr := destination; time := now_isoformat w;
     max := 1; details := 0 |}.

Definition with_state (v : option Z) (m : Mem) : Mem :=
  {| self := set_state v (self m); http_log := http_log m |}.

Definition with_request (r : Request) (m : Mem) : Mem :=
  {| self := self m; http_log := http_log m ++ [r] |}.

(** What every update keeps. *)
Definition update_frame (m m' : Mem) : Prop :=
  same_setup (self m) (self m') /\
  (valid_api_connection (self m') = true -> valid_api_connection (self m) = true) /\
  (Spec.published (_state (self m)) -> Spec.published (_state (self m'))).

(** Reading the response sends nothing. *)
Definition log_kept (m m' : Mem) : Prop := http_log m' = http_log m.

(** ** The platform: the registry and the manual update service *)

(** A sensor as [hass.data[DATA_KEY]] holds it, with the [entity_id]
    attribute of the entity: the host sets it when the entity is added, it is
    [None] before that and for a sensor that was never added. *)
Record Entry : Type := {
  sensor_entity_id : option string;
  sensor : Sensor;
}.

(** What a call of the service leaves behind: the registry, the requests
    sent, the entities on which [schedule_update_ha_state] was called, and
    whether the handler returned or raised. *)
Record ServiceRun : Type := {
  entries : list Entry;
  sent : list Request;
  scheduled : list (option string);
  outcome : result unit;
}.

Definition option_string_eqb (a b : option string) : bool :=
  match a, b with
  | Some x, Some y => String.eqb x y
  | None, None => true
  | _, _ => false
  end.

(** What [hass.data] and the host's services hold of this platform:
    [hass.data.get(DATA_KEY)], the names registered under the sensor domain,
    and the calls of [add_devices]. *)
Record HostData : Type := {
  data_key : option (list Sensor);
  services : list string;
  add_devices_calls : list (list Sensor);
}.

Section Platform.

Variable vincenty : coords -> coords -> result Q.
Variable parse_duration_str : string -> result timedelta.

(** The loop of the service handler [update(service)], lines 71-74, over
    the sensors still to visit.  The update is called with
    [no_throttle=True], so its body runs.  An exception of an update leaves
    the handler at once: the sensor keeps what the update did to it, the
    sensors after it are not visited. *)
Fixpoint update_service_loop (w : World) (entity_id : option string)
         (todo : list Entry) (log : list Request) : ServiceRun :=
  match todo with
  | [] => {| entries := []; sent := log; scheduled := []; outcome := Ok tt |}
  | e :: todo' =>
      if option_string_eqb (sensor_entity_id e) entity_id then
        match update vincenty parse_duration_str w
                     {| self := sensor e; http_log := log |} with
        | (Ok _, m) =>
            let rest := update_service_loop w entity_id todo' (http_log m) in
            {| entries := {| sensor_entity_id := sensor_entity_id e;
                             sensor := self m |} :: entries rest;
               sent := sent rest;
               scheduled := sensor_entity_id e :: scheduled rest;
               outcome := outcome rest |}
        | (Raise exc, m) =>
            {| entries := {| sensor_entity_id := sensor_entity_id e;
                             sensor := self m |} :: todo';
               sent := http_log m;
               scheduled := [];
               outcome := Raise exc |}
        end
      else
        let rest := update_service_loop w entity_id todo' log in
        {| entries := e :: entries rest;
           sent := sent rest;
           scheduled := scheduled rest;
           outcome := outcome rest |}
  end.

(** The service handler [update(service)], with [entity_id] the value of
    [service.data.get('entity_id')]. *)
Definition update_service (w : World) (entity_id : option string)
           (registry : list Entry) : ServiceRun :=
  update_service_loop w entity_id registry [].

(** [run_setup] with its first lines, 48-51: the registry is created and
    the service registered when [DATA_KEY] is not yet in [hass.data]. *)
Definition run_setup_event (w : World) (config : Config) (h : HostData)
  : HostData :=
  let h1 :=
    match data_key h with
    | None => {| data_key := Some [];
                 services := services h ++ ["here_travel_sensor_update"];
                 add_devices_calls := add_devices_calls h |}
    | Some _ => h
    end in
  let data0 := match data_key h1 with Some l => l | None => [] end in
  let s := run_setup vincenty parse_duration_str w config data0 in
  {| data_key := Some (data s);
     services := services h1;
     add_devices_calls :=
       match added_devices s with
       | [] => add_devices_calls h1
       | devices => add_devices_calls h1 ++ [devices]
       end |}.

(** One [run_setup] per configured platform, in the order the start event
    reaches them. *)
Definition run_setups (platforms : list (World * Config)) (h : HostData) : HostData :=
  fold_left (fun h p => run_setup_event (fst p) (snd p) h) platforms h.

End Platform.

(** ** More predicates used in the statements *)

(** Whether the host knows the entity a location refers to; a location that
    is no entity id refers to none. *)
Definition known (hass : Host.Hass) (entity_id : option string) : bool :=
  match entity_id with
  | Some id => match Host.states_get hass id with Some _ => true | None => false end
  | None => true
  end.

Definition entity_id_of (location : string) : option string :=
  if is_trackable location then Some location else None.

(** The first character of a text is none of a digit and a dot. *)
Definition starts_clear (x : string) : bool :=
  match x with
  | EmptyString => true
  | String c _ => negb (Str.is_digit c) && negb (Ascii.eqb c "."%char)
  end.

Definition flag_kept (m m' : Mem) : Prop :=
  valid_api_connection (self m') = valid_api_connection (self m).

Definition locations_kept (m m' : Mem) : Prop :=
  _origin (self m') = _origin (self m) /\
  _destination (self m') = _destination (self m) /\
  _origin_entity_id (self m') = _origin_entity_id (self m) /\
  _destination_entity_id (self m') = _destination_entity_id (self m).

Definition minutes_of_a_day (st : option Z) : Prop :=
  match st with
  | None => True
  | Some n => 0 <= n <= 1440
  end.

(** The state is as before, or unknown, or a number of minutes in a day. *)
Definition state_step (m m' : Mem) : Prop :=
  _state (self m') = _state (self m) \/ minutes_of_a_day (_state (self m')).

(** ** Definitions for the amended statements *)

(** The value at a path of keys in a decoded body, each step made in a
    JSON object; [None] when the path leads nowhere, so that
    [Res.Connections] is missing from a body exactly when
    [json_path ["Res"; "Connections"]] gives [None]. *)
Fixpoint json_path (path : list string) (v : pyval) : option pyval :=
  match path with
  | [] => Some v
  | key :: path' =>
      match v with
      | PyDict fields =>
          match assoc key fields with
          | Some x => json_path path' x
          | None => None
          end
      | _ => None
      end
  end.

(** A distance for the example of a pair on which geopy gives none.
    geopy's [vincenty] iterates at most 20 times and raises
    [ValueError("Vincenty formula failed to converge!")] when the iteration
    has not settled, which is the case for nearly antipodal points; the
    points (0, 0) and (0.5, 179.7), some 19 900 km apart, are the standard
    instance.  Elsewhere this is [vincenty_example]. *)
Definition vincenty_antipodal_example (p q : coords) : result Q :=
  if Qeq_bool (fst p) 0 && Qeq_bool (snd p) 0
     && Qeq_bool (fst q) (5 # 10) && Qeq_bool (snd q) (1797 # 10)
  then Raise ValueError
  else vincenty_example p q.

(** Two more zones for the examples: one with a longitude only, one that
    bears the name of [zone_home] and has no coordinates. *)
Definition zone_without_latitude : Host.State :=
  {| Host.entity_id := "zone.depot"; Host.state := "zoning";
     Host.attributes := [("friendly_name", Host.AString "Depot");
                         ("longitude", Host.ANumber "4.0")] |}.

Definition zone_home_bare : Host.State :=
  {| Host.entity_id := "zone.home_2"; Host.state := "zoning";
     Host.attributes := [("friendly_name", Host.AString "Home")] |}.

(** * Properties *)

(** ** Strings and the coordinate pattern *)

Lemma append_assoc (a b c : string) : (a ++ b) ++ c = a ++ (b ++ c).
Proof. induction a as [|x a IH]; simpl; [reflexivity | now rewrite IH]. Qed.

Lemma append_empty_r (a : string) : a ++ "" = a.
Proof. induction a as [|x a IH]; simpl; [reflexivity | now rewrite IH]. Qed.

Lemma length_append (a b : string) :
  String.length (a ++ b) = (String.length a + String.length b)%nat.
Proof. induction a as [|x a IH]; simpl; [reflexivity | now rewrite IH]. Qed.

Lemma substring_append (a b : string) :
  substring 0 (String.length a) (a ++ b) = a.
Proof.
  induction a as [|x a IH]; simpl.
  - destruct b; reflexivity.
  - now rewrite IH.
Qed.

Lemma substring_split (n : nat) (s : string) :
  exists r, s = substring 0 n s ++ r.
Proof.
  revert s; induction n as [|n IH]; intros s.
  - exists s. destruct s; reflexivity.
  - destruct s as [|c s]; simpl.
    + exists "". reflexivity.
    + destruct (IH s) as [r Hr]. exists r. now rewrite <- Hr.
Qed.

Lemma span_digits_spec (s : string) :
  let (ds, r) := Str.span_digits s in
  s = ds ++ r /\ Str.all_digits ds = true /\
  match r with String c _ => Str.is_digit c = false | EmptyString => True end.
Proof.
  induction s as [|c s IH]; simpl.
  - auto.
  - destruct (Str.is_digit c) eqn:Hc.
    + destruct (Str.span_digits s) as [ds r].
      destruct IH as (-> & Hd & Hr). simpl. rewrite Hc, Hd. auto.
    + simpl. auto.
Qed.

(** A run of digits followed by something that is no digit is exactly what
    [span_digits] takes. *)
Lemma span_digits_append (ds r : string) :
  Str.all_digits ds = true ->
  match r with String c _ => Str.is_digit c = false | EmptyString => True end ->
  Str.span_digits (ds ++ r) = (ds, r).
Proof.
  intros Hd Hr. induction ds as [|c ds IH]; simpl in *.
  - destruct r as [|c r]; [reflexivity | simpl; now rewrite Hr].
  - apply andb_prop in Hd as [Hc Hd]. now rewrite Hc, IH.
Qed.

(** Whatever follows, [span_digits] takes at least a leading run of
    digits. *)
Lemma span_digits_extends (ds x : string) :
  Str.all_digits ds = true ->
  exists more r, Str.span_digits (ds ++ x) = (ds ++ more, r).
Proof.
  intros Hd. induction ds as [|c ds IH]; simpl in *.
  - destruct (Str.span_digits x) as [more r] eqn:E. now exists more, r.
  - apply andb_prop in Hd as [Hc Hd]. rewrite Hc.
    destruct (IH Hd) as (more & r & ->). now exists more, r.
Qed.

Lemma split1_digits (sep : ascii) (ds r : string) :
  Str.is_digit sep = false -> Str.all_digits ds = true ->
  Str.split1 sep (ds ++ r) =
  let (a, b) := Str.split1 sep r in (ds ++ a, b).
Proof.
  intros Hs Hd. induction ds as [|c ds IH]; simpl in *.
  - now destruct (Str.split1 sep r).
  - apply andb_prop in Hd as [Hc Hd].
    destruct (Ascii.eqb_spec c sep) as [->|_]; [congruence|].
    rewrite (IH Hd). now destruct (Str.split1 sep r).
Qed.

Lemma is_empty_append (a b : string) :
  Str.is_empty a = false -> Str.is_empty (a ++ b) = false.
Proof. now destruct a. Qed.

Lemma decimal_digits (ds : string) :
  Str.is_empty ds = false -> Str.all_digits ds = true -> Spec.decimal ds = true.
Proof.
  intros He Hd. unfold Spec.decimal.
  rewrite <- (append_empty_r ds), split1_digits by (trivial || reflexivity).
  simpl. unfold Spec.digits. rewrite append_empty_r, He, Hd. reflexivity.
Qed.

Lemma decimal_fraction (ds fs : string) :
  Str.is_empty ds = false -> Str.all_digits ds = true ->
  Str.is_empty fs = false -> Str.all_digits fs = true ->
  Spec.decimal (ds ++ "." ++ fs) = true.
Proof.
  intros He Hd Hfe Hfd. unfold Spec.decimal.
  rewrite split1_digits by (trivial || reflexivity).
  simpl. unfold Spec.digits. rewrite append_empty_r, He, Hd, Hfe, Hfd. reflexivity.
Qed.

(** The shape of a text accepted as "digits[.digits]". *)
Lemma decimal_inv (t : string) :
  Spec.decimal t = true ->
  exists ds, Str.is_empty ds = false /\ Str.all_digits ds = true /\
    (t = ds \/
     exists fs, Str.is_empty fs = false /\ Str.all_digits fs = true /\
                t = ds ++ "." ++ fs).
Proof.
  unfold Spec.decimal.
  assert (Hsplit : forall u,
    match Str.split1 "."%char u with
    | (a, None) => u = a
    | (a, Some b) => u = a ++ "." ++ b
    end).
  { induction u as [|c u IH]; simpl; [reflexivity|].
    destruct (Ascii.eqb_spec c "."%char) as [->|_]; [reflexivity|].
    destruct (Str.split1 "."%char u) as [a [b|]]; simpl; now rewrite IH at 1. }
  specialize (Hsplit t).
  destruct (Str.split1 "."%char t) as [ip [fp|]]; unfold Spec.digits; intros H.
  - apply andb_prop in H as [Hi Hf].
    apply andb_prop in Hi as [Hie Hid]. apply andb_prop in Hf as [Hfe Hfd].
    apply negb_true_iff in Hie, Hfe.
    exists ip. repeat split; trivial. right. exists fp. auto.
  - apply andb_prop in H as [Hie Hid]. apply negb_true_iff in Hie.
    exists ip. repeat split; trivial. now left.
Qed.

(** What [match_number] returns is a decimal of the grammar, cut off the
    front of the text. *)
Lemma match_number_sound (s t r : string) :
  match_number s = Some (t, r) ->
  s = t ++ r /\ Spec.decimal t = true /\
  (forall x, Str.split1 ","%char (t ++ x) =
             let (a, b) := Str.split1 ","%char x in (t ++ a, b)).
Proof.
  unfold match_number. pose proof (span_digits_spec s) as Hs.
  destruct (Str.span_digits s) as [ds r0]. destruct Hs as (-> & Hd & Hr0).
  destruct (Str.is_empty ds) eqn:He; [discriminate|].
  assert (Hplain : forall x, Str.split1 ","%char (ds ++ x) =
             let (a, b) := Str.split1 ","%char x in (ds ++ a, b))
    by (intros x; now apply split1_digits).
  destruct r0 as [|c r']; [intros [= <- <-]; auto using decimal_digits|].
  destruct (Ascii.eqb_spec c "."%char) as [->|_];
    [|intros [= <- <-]; auto using decimal_digits].
  pose proof (span_digits_spec r') as Hs'.
  destruct (Str.span_digits r') as [fs r'']. destruct Hs' as (-> & Hfd & _).
  destruct (Str.is_empty fs) eqn:Hfe; intros [= <- <-];
    [auto using decimal_digits|].
  split; [|split].
  - now rewrite !append_assoc.
  - now apply decimal_fraction.
  - intros x. rewrite !append_assoc, Hplain. simpl.
    rewrite split1_digits by (trivial || reflexivity).
    destruct (Str.split1 ","%char x). now rewrite !append_assoc.
Qed.

(** Soundness of the matcher: a match is a prefix of the grammar's form. *)
Lemma COORD_PATTERN_match_sound (s g1 g2 rest : string) :
  COORD_PATTERN_match s = Some (g1, g2, rest) ->
  s = (g1 ++ "," ++ g2) ++ rest /\ Spec.coordinates (g1 ++ "," ++ g2) = true.
Proof.
  unfold COORD_PATTERN_match.
  destruct (match_number s) as [[t r]|] eqn:E1; [|discriminate].
  destruct r as [|c r]; [discriminate|].
  destruct (Ascii.eqb_spec c ","%char) as [->|_]; [|discriminate].
  destruct (match_number r) as [[t2 r2]|] eqn:E2; [|discriminate].
  intros [= <- <- <-].
  apply match_number_sound in E1 as (-> & Hd1 & Hc1).
  apply match_number_sound in E2 as (-> & Hd2 & Hc2).
  split.
  - now rewrite !append_assoc.
  - unfold Spec.coordinates. rewrite Hc1. simpl.
    now rewrite append_empty_r, Hd1, Hd2.
Qed.

Lemma coordinates_prefix_intro (p rest : string) :
  Spec.coordinates p = true -> Spec.coordinates_prefix (p ++ rest) = true.
Proof.
  intros Hp. unfold Spec.coordinates_prefix. apply existsb_exists.
  exists (String.length p). split.
  - apply in_seq. rewrite length_append. lia.
  - now rewrite substring_append.
Qed.

(** A text none of whose prefixes has the grammar's form is not matched. *)
Lemma no_prefix_no_match (s : string) :
  Spec.coordinates_prefix s = false -> COORD_PATTERN_match s = None.
Proof.
  intros H. destruct (COORD_PATTERN_match s) as [[[g1 g2] rest]|] eqn:E; [|reflexivity].
  apply COORD_PATTERN_match_sound in E as [-> Hc].
  now rewrite (coordinates_prefix_intro _ rest Hc) in H.
Qed.

Lemma split1_inv (sep : ascii) (u a b : string) :
  Str.split1 sep u = (a, Some b) -> u = a ++ String sep b.
Proof.
  revert a. induction u as [|c u IH]; simpl; intros a; [discriminate|].
  destruct (Ascii.eqb_spec c sep) as [->|_].
  - now intros [= <- <-].
  - destruct (Str.split1 sep u) as [a' b']. intros [= <- ->].
    simpl. now rewrite <- (IH a').
Qed.

(** A decimal followed by a comma is matched as it stands. *)
Lemma match_number_before_comma (a y : string) :
  Spec.decimal a = true ->
  match_number (a ++ "," ++ y) = Some (a, "," ++ y).
Proof.
  intros Ha. apply decimal_inv in Ha as (ds & He & Hd & [->|(fs & Hfe & Hfd & ->)]);
    unfold match_number.
  - rewrite span_digits_append by (trivial || reflexivity). now rewrite He.
  - rewrite !append_assoc.
    rewrite span_digits_append by (trivial || reflexivity). rewrite He. simpl.
    rewrite span_digits_append by (trivial || reflexivity). now rewrite Hfe.
Qed.

(** A decimal at the front of a text is matched, possibly with more digits
    than the decimal has. *)
Lemma match_number_at_front (b x : string) :
  Spec.decimal b = true -> exists t r, match_number (b ++ x) = Some (t, r).
Proof.
  intros Hb. apply decimal_inv in Hb as (ds & He & Hd & [->|(fs & Hfe & Hfd & ->)]);
    unfold match_number.
  - destruct (span_digits_extends ds x Hd) as (more & r & ->).
    rewrite (is_empty_append _ _ He).
    destruct r as [|c r]; [eauto|].
    destruct (Ascii.eqb c "."%char); [|eauto].
    destruct (Str.span_digits r) as [fs r'']. destruct (Str.is_empty fs); eauto.
  - rewrite !append_assoc.
    rewrite span_digits_append by (trivial || reflexivity). rewrite He. simpl.
    destruct (span_digits_extends fs x Hfd) as (more & r & ->).
    rewrite (is_empty_append _ _ Hfe). eauto.
Qed.

(** Completeness of the matcher: a text with a prefix of the grammar's form
    is matched. *)
Lemma COORD_PATTERN_match_complete (s : string) :
  Spec.coordinates_prefix s = true -> COORD_PATTERN_match s <> None.
Proof.
  unfold Spec.coordinates_prefix. intros H.
  apply existsb_exists in H as (n & _ & Hn).
  destruct (substring_split n s) as [rest Hs].
  unfold Spec.coordinates in Hn.
  destruct (Str.split1 ","%char (substring 0 n s)) as [a [b|]] eqn:E; [|discriminate].
  apply andb_prop in Hn as [Ha Hb]. apply split1_inv in E.
  rewrite Hs, E. change (String ","%char b) with ("," ++ b).
  rewrite !append_assoc. unfold COORD_PATTERN_match.
  rewrite (match_number_before_comma a _ Ha). simpl.
  destruct (match_number_at_front b rest Hb) as (t & r & ->). discriminate.
Qed.

(** The code raises on exactly the texts without a prefix of the grammar's
    form. *)
Lemma get_lat_long_raises_iff (s : string) :
  get_lat_long s = Raise AttributeError <-> Spec.coordinates_prefix s = false.
Proof.
  unfold get_lat_long. split.
  - intros H. destruct (Spec.coordinates_prefix s) eqn:E; [|reflexivity].
    apply COORD_PATTERN_match_complete in E.
    destruct (COORD_PATTERN_match s) as [[[g1 g2] r]|]; [discriminate|congruence].
  - intros H. now rewrite (no_prefix_no_match s H).
Qed.

Lemma match_number_at_end (b x : string) :
  Spec.decimal b = true -> starts_clear x = true ->
  match_number (b ++ x) = Some (b, x).
Proof.
  intros Hb Hx.
  assert (Hnd : match x with String c _ => Str.is_digit c = false
                        | EmptyString => True end).
  { destruct x as [|c x]; [exact I|]. simpl in Hx.
    apply andb_prop in Hx as [H _]. now apply negb_true_iff in H. }
  apply decimal_inv in Hb as (ds & He & Hd & [->|(fs & Hfe & Hfd & ->)]);
    unfold match_number.
  - rewrite span_digits_append by trivial. rewrite He.
    destruct x as [|c x]; [reflexivity|]. simpl in Hx.
    apply andb_prop in Hx as [_ H]. apply negb_true_iff in H. now rewrite H.
  - rewrite !append_assoc.
    rewrite span_digits_append by (trivial || reflexivity). rewrite He. simpl.
    rewrite span_digits_append by trivial. now rewrite Hfe.
Qed.

Lemma COORD_PATTERN_match_full (a b x : string) :
  Spec.decimal a = true -> Spec.decimal b = true -> starts_clear x = true ->
  COORD_PATTERN_match ((a ++ "," ++ b) ++ x) = Some (a, b, x).
Proof.
  intros Ha Hb Hx. unfold COORD_PATTERN_match.
  rewrite !append_assoc, (match_number_before_comma a _ Ha). simpl.
  now rewrite (match_number_at_end b x Hb Hx).
Qed.

(** A decimal, a comma and a decimal are parsed to their two values. *)
Lemma get_lat_long_pair (a b : string) :
  Spec.decimal a = true -> Spec.decimal b = true ->
  get_lat_long (a ++ "," ++ b) = Ok (float_of_decimal a, float_of_decimal b).
Proof.
  intros Ha Hb. unfold get_lat_long.
  rewrite <- (append_empty_r (a ++ "," ++ b)).
  now rewrite (COORD_PATTERN_match_full a b "" Ha Hb eq_refl).
Qed.

(** ** Rounding and timedelta *)

Lemma td_seconds_range (td : timedelta) : 0 <= td_seconds td < 86400.
Proof. unfold td_seconds. apply Z.mod_pos_bound. lia. Qed.

(** Below one day the seconds field is the whole duration. *)
Lemma td_seconds_below_a_day (td : timedelta) :
  0 <= td_total_seconds td < 86400 -> td_seconds td = td_total_seconds td.
Proof. unfold td_seconds, td_total_seconds. intros H. now apply Z.mod_small. Qed.

(** From one day on it is not. *)
Lemma td_seconds_from_a_day (td : timedelta) :
  86400 <= td_total_seconds td -> td_seconds td < td_total_seconds td.
Proof. pose proof (td_seconds_range td). lia. Qed.

Lemma py_round_div_nonneg (n d : Z) : 0 <= n -> 0 < d -> 0 <= py_round_div n d.
Proof.
  intros Hn Hd. unfold py_round_div.
  assert (0 <= n / d) by (apply Z.div_pos; lia).
  repeat match goal with |- context [if ?b then _ else _] => destruct b end; lia.
Qed.

(** [py_round_div n d] is a nearest integer to [n / d]. *)
Lemma py_round_div_nearest (n d : Z) :
  0 < d -> 2 * Z.abs (d * py_round_div n d - n) <= d.
Proof.
  intros Hd. unfold py_round_div.
  pose proof (Z.div_mod n d ltac:(lia)) as E.
  pose proof (Z.mod_pos_bound n d Hd) as B.
  destruct (Z.ltb_spec (2 * (n mod d)) d); [lia|].
  destruct (Z.ltb_spec d (2 * (n mod d))); [lia|].
  destruct (Z.even (n / d)); lia.
Qed.

(** At a tie the even neighbour is taken. *)
Lemma py_round_div_tie (n d : Z) :
  0 < d -> 2 * (n mod d) = d -> Z.even (py_round_div n d) = true.
Proof.
  intros Hd Ht. unfold py_round_div.
  rewrite Ht, Z.ltb_irrefl.
  destruct (Z.even (n / d)) eqn:E; [exact E|].
  rewrite Z.even_add, E. reflexivity.
Qed.

(** ** Stepping through method bodies *)

Ltac run :=
  unfold bind, lift, ret, get_self, modify_self, send; simpl.

(** Use a known dictionary entry at the next membership test and lookup. *)
Ltac look H :=
  unfold py_in, py_getitem, is_key; rewrite !H; run.

Lemma same_setup_refl (s : Sensor) : same_setup s s.
Proof. repeat split. Qed.

Lemma same_setup_trans (a b c : Sensor) :
  same_setup a b -> same_setup b c -> same_setup a c.
Proof. unfold same_setup. intuition congruence. Qed.

(** [_get_location_from_entity] always returns; it may only lower the
    flag. *)
Lemma _get_location_from_entity_returns (hass : Host.Hass) (id : string) (m : Mem) :
  exists location,
    _get_location_from_entity hass id m =
      (Ok location,
       match Host.states_get hass id with
       | Some _ => m
       | None => {| self := set_valid_api_connection false (self m);
                    http_log := http_log m |}
       end).
Proof.
  unfold _get_location_from_entity.
  destruct (Host.states_get hass id) as [entity|]; [|run; eauto].
  destruct (Host.has_location (Some entity)); [run; eauto|].
  destruct (Host.states_get hass _) as [z|];
    [destruct (Host.has_location (Some z))|];
    run; try destruct (Str.startswith "sensor." id); eauto.
Qed.

Lemma never_raises_bind {A B} (c : M A) (k : A -> M B) :
  never_raises c -> (forall a, never_raises (k a)) -> never_raises (bind c k).
Proof.
  intros Hc Hk m. unfold bind. destruct (Hc m) as [a Ha].
  destruct (c m) as [r m']. simpl in Ha. subst r. apply Hk.
Qed.

Lemma keeps_bind {A B} R (c : M A) (k : A -> M B) :
  preorder R -> keeps R c -> (forall a, keeps R (k a)) -> keeps R (bind c k).
Proof.
  intros [Hr Ht] Hc Hk m. unfold bind. specialize (Hc m).
  destruct (c m) as [[a|e] m']; simpl in *; [|assumption].
  eapply Ht; [eassumption | apply Hk].
Qed.

Lemma never_raises_ret {A} (a : A) : never_raises (ret a).
Proof. intros m. now exists a. Qed.

Lemma never_raises_get_self : never_raises get_self.
Proof. intros m. now exists (self m). Qed.

Lemma never_raises_modify_self f : never_raises (modify_self f).
Proof. intros m. now exists tt. Qed.

Lemma never_raises__get_location_from_entity hass id :
  never_raises (_get_location_from_entity hass id).
Proof.
  intros m. destruct (_get_location_from_entity_returns hass id m) as [l ->].
  now exists l.
Qed.

Create HintDb methods.
#[local] Hint Resolve never_raises_ret never_raises_get_self
  never_raises_modify_self never_raises__get_location_from_entity
  : methods.

Ltac never_raises_steps :=
  repeat first
    [ apply never_raises_bind; [|intros ?]
    | match goal with |- never_raises (match ?x with _ => _ end) => destruct x end
    | solve [auto with methods] ].

Lemma never_raises_resolve_locations (w : World) : never_raises (resolve_locations w).
Proof. unfold resolve_locations. never_raises_steps. Qed.

Lemma resolve_locations_returns (w : World) (m : Mem) :
  resolve_locations w m = (Ok tt, resolved w m).
Proof.
  unfold resolved. destruct (never_raises_resolve_locations w m) as [[] H].
  now rewrite (surjective_pairing (resolve_locations w m)), H.
Qed.

Lemma preorder_resolution_frame : preorder resolution_frame.
Proof.
  split.
  - intros m. repeat split; auto.
  - intros a b c (S1 & L1 & C1 & F1) (S2 & L2 & C2 & F2).
    repeat split; try congruence; try (eapply same_setup_trans; eassumption); auto.
Qed.

Lemma keeps_frame_modify (f : Sensor -> Sensor) :
  (forall s, _state (f s) = _state s /\ same_setup s (f s) /\
             (valid_api_connection (f s) = true -> valid_api_connection s = true)) ->
  keeps resolution_frame (modify_self f).
Proof.
  intros H m. destruct (H (self m)) as (? & ? & ?).
  split; [|split; [|split]]; simpl; auto.
Qed.

Lemma keeps_frame__get_location_from_entity hass id :
  keeps resolution_frame (_get_location_from_entity hass id).
Proof.
  intros m. destruct (_get_location_from_entity_returns hass id m) as [l ->].
  simpl. destruct (Host.states_get hass id).
  - apply preorder_resolution_frame.
  - repeat split; simpl; auto. discriminate.
Qed.

Lemma keeps_frame_resolve_locations (w : World) :
  keeps resolution_frame (resolve_locations w).
Proof.
  unfold resolve_locations.
  repeat first
    [ apply keeps_bind; [apply preorder_resolution_frame| |intros ?]
    | match goal with |- keeps _ (match ?x with _ => _ end) => destruct x end
    | apply keeps_frame__get_location_from_entity
    | apply keeps_frame_modify; intros ?; repeat split; auto
    | intros m; apply preorder_resolution_frame ].
Qed.

Lemma resolved_frame (w : World) (m : Mem) : resolution_frame m (resolved w m).
Proof. apply keeps_frame_resolve_locations. Qed.

(** [update] after its first part. *)
Lemma update_unfold vincenty parse_duration_str (w : World) (m : Mem) :
  update vincenty parse_duration_str w m =
  match _destination (self (resolved w m)), _origin (self (resolved w m)) with
  | Some destination, Some origin =>
      gate_and_fetch vincenty parse_duration_str w origin destination (resolved w m)
  | _, _ => (Ok tt, resolved w m)
  end.
Proof.
  unfold update, bind at 1. rewrite resolve_locations_returns. run.
  destruct (_destination _); [destruct (_origin _)|]; reflexivity.
Qed.

(** ** The gate and the response *)

Section Facts.

Variable vincenty : coords -> coords -> result Q.
Variable parse_duration_str : string -> result timedelta.

Abbreviation update := (update vincenty parse_duration_str).
Abbreviation gate_and_fetch := (gate_and_fetch vincenty parse_duration_str).
Abbreviation read_response := (read_response parse_duration_str).

Lemma Qlt_bool_iff (x y : Q) : Qlt_bool x y = true <-> (x < y)%Q.
Proof.
  unfold Qlt_bool. rewrite negb_true_iff. split.
  - intros H. apply Qnot_le_lt. intros L. apply Qle_bool_iff in L. congruence.
  - intros H. destruct (Qle_bool y x) eqn:E; [|reflexivity].
    apply Qle_bool_iff in E. exfalso. now apply (Qlt_not_le x y).
Qed.

(** A location the pattern does not match stops the update with
    AttributeError, before any distance is computed and before any
    request. *)
Lemma gate_parse_failure (w : World) (o d : string) (m : Mem) :
  COORD_PATTERN_match o = None \/ COORD_PATTERN_match d = None ->
  gate_and_fetch w o d m = (Raise AttributeError, m).
Proof.
  intros H. unfold gate_and_fetch, get_lat_long. run.
  destruct (COORD_PATTERN_match o) as [[[a b] r]|]; simpl; [|reflexivity].
  destruct H as [H|H]; [discriminate|]. now rewrite H.
Qed.

Lemma gate_too_close (w : World) (o d : string) (m : Mem) p q dist :
  get_lat_long o = Ok p -> get_lat_long d = Ok q -> vincenty p q = Ok dist ->
  (dist < inject_Z (_min_distance (self m)))%Q ->
  gate_and_fetch w o d m = (Ok tt, with_state None m).
Proof.
  intros Ho Hd Hv Hlt. unfold gate_and_fetch. run.
  rewrite Ho; simpl. rewrite Hd; simpl. rewrite Hv; simpl.
  apply Qlt_bool_iff in Hlt. now rewrite Hlt.
Qed.

Lemma gate_distance_failure (w : World) (o d : string) (m : Mem) p q e :
  get_lat_long o = Ok p -> get_lat_long d = Ok q -> vincenty p q = Raise e ->
  gate_and_fetch w o d m = (Raise e, m).
Proof.
  intros Ho Hd Hv. unfold gate_and_fetch. run.
  rewrite Ho; simpl. rewrite Hd; simpl. now rewrite Hv.
Qed.

Lemma gate_far_enough (w : World) (o d : string) (m : Mem) p q dist :
  get_lat_long o = Ok p -> get_lat_long d = Ok q -> vincenty p q = Ok dist ->
  ~ (dist < inject_Z (_min_distance (self m)))%Q ->
  gate_and_fetch w o d m =
  let r := request_of w (self m) o d in
  match req_get w r with
  | Ok (Some response) =>
      match json response with
      | Ok body => read_response body (with_request r m)
      | Raise e => (Raise e, with_request r m)
      end
  | Ok None => (Ok tt, with_request r m)
  | Raise e => (Raise e, with_request r m)
  end.
Proof.
  intros Ho Hd Hv Hge. unfold gate_and_fetch. run.
  rewrite Ho; simpl. rewrite Hd; simpl. rewrite Hv; simpl.
  destruct (Qlt_bool dist _) eqn:E; [now apply Qlt_bool_iff in E|].
  unfold request_of, with_request.
  destruct (req_get w _) as [[response|]|e]; reflexivity.
Qed.

(** A response of the expected shape: the state becomes the rounded
    minutes of the seconds field of the parsed duration. *)
Lemma read_response_duration (fields res conns first : list (string * pyval))
      (others : list pyval) (duration : pyval) (m : Mem) :
  assoc "Res" fields = Some (PyDict res) ->
  assoc "Connections" res = Some (PyDict conns) ->
  assoc "Connection" conns = Some (PyList (PyDict first :: others)) ->
  assoc "duration" first = Some duration ->
  read_response (PyDict fields) m =
  match parse_duration parse_duration_str duration with
  | Ok td => (Ok tt, with_state (Some (py_round_div (td_seconds td) 60)) m)
  | Raise e => (Raise e, m)
  end.
Proof.
  intros H1 H2 H3 H4. unfold read_response.
  look H1. look H2. look H3. look H4.
  destruct (parse_duration _ _); reflexivity.
Qed.

Lemma read_response_incomplete (d : pyval) (m : Mem) :
  Spec.incomplete d -> read_response d m = (Ok tt, with_state None m).
Proof.
  intros H. unfold read_response.
  destruct H as [d H1 | d res H1 H2 | d res conns H1 H2 H3
                | d res conns H1 H2 H3 | d res conns first others H1 H2 H3 H4];
    look H1; try reflexivity; look H2; try reflexivity;
    look H3; try reflexivity.
  look H4. reflexivity.
Qed.

Lemma preorder_update_frame : preorder update_frame.
Proof.
  split.
  - intros m. repeat split; auto.
  - intros a b c (C1 & F1 & P1) (C2 & F2 & P2).
    split; [eapply same_setup_trans; eassumption|]. split; auto.
Qed.

Lemma resolution_frame_update_frame (m m' : Mem) :
  resolution_frame m m' -> update_frame m m'.
Proof. intros (S & L & C & F). split; [|split]; auto. now rewrite S. Qed.

Lemma keeps_update_frame_lift {A} (r : result A) : keeps update_frame (lift r).
Proof. intros m. apply preorder_update_frame. Qed.

Lemma keeps_update_frame_set_state (v : option Z) :
  Spec.published v -> keeps update_frame (modify_self (set_state v)).
Proof. intros Hv m. split; [|split]; simpl; auto. repeat split. Qed.

Lemma keeps_update_frame_send (w : World) (r : Request) :
  keeps update_frame (send w r).
Proof. intros m. split; [|split]; simpl; auto. repeat split. Qed.

Ltac keeps_steps :=
  repeat first
    [ apply keeps_bind; [apply preorder_update_frame| |intros ?]
    | match goal with
      | |- keeps _ (match ?x with _ => _ end) => destruct x
      | |- keeps _ (if ?b then _ else _) => destruct b
      end
    | apply keeps_update_frame_lift
    | apply keeps_update_frame_send
    | apply keeps_update_frame_set_state
    | intros m; apply preorder_update_frame ].

Lemma keeps_update_frame_read_response (d : pyval) :
  keeps update_frame (read_response d).
Proof.
  unfold read_response. keeps_steps; simpl; trivial.
  apply py_round_div_nonneg; [apply td_seconds_range | lia].
Qed.

Lemma keeps_update_frame_gate (w : World) (o d : string) :
  keeps update_frame (gate_and_fetch w o d).
Proof.
  unfold gate_and_fetch. keeps_steps; simpl; trivial.
  apply py_round_div_nonneg; [apply td_seconds_range | lia].
Qed.

Lemma keeps_update_frame_update (w : World) : keeps update_frame (update w).
Proof.
  intros m. rewrite update_unfold.
  assert (H : update_frame m (resolved w m))
    by apply resolution_frame_update_frame, resolved_frame.
  destruct (_destination _); [destruct (_origin _)|]; simpl; trivial.
  eapply preorder_update_frame; [exact H | apply keeps_update_frame_gate].
Qed.

End Facts.

Lemma preorder_log_kept : preorder log_kept.
Proof. split; unfold log_kept; [reflexivity | congruence]. Qed.

Lemma keeps_log_read_response parse_duration_str (d : pyval) :
  keeps log_kept (read_response parse_duration_str d).
Proof.
  unfold read_response.
  repeat first
    [ apply keeps_bind; [apply preorder_log_kept| |intros ?]
    | match goal with |- keeps _ (if ?b then _ else _) => destruct b end
    | intros m; reflexivity ].
Qed.

Lemma request_of_resolved (w : World) (m : Mem) (o d : string) :
  request_of w (self (resolved w m)) o d = request_of w (self m) o d.
Proof.
  destruct (resolved_frame w m) as (_ & _ & (_ & Hid & Hcode & _) & _).
  unfold request_of. now rewrite Hid, Hcode.
Qed.

Lemma min_distance_resolved (w : World) (m : Mem) :
  _min_distance (self (resolved w m)) = _min_distance (self m).
Proof. now destruct (resolved_frame w m) as (_ & _ & (_ & _ & _ & _ & H & _) & _). Qed.

(** An update that gets as far as the request, and is answered by [body]. *)
Lemma update_answered vincenty parse_duration_str (w : World) (m : Mem)
      (o d : string) (p q : coords) (dist : Q) (response : Response) (body : pyval) :
  _origin (self (resolved w m)) = Some o ->
  _destination (self (resolved w m)) = Some d ->
  get_lat_long o = Ok p -> get_lat_long d = Ok q -> vincenty p q = Ok dist ->
  ~ (dist < inject_Z (_min_distance (self m)))%Q ->
  req_get w (request_of w (self m) o d) = Ok (Some response) ->
  json response = Ok body ->
  update vincenty parse_duration_str w m =
  read_response parse_duration_str body
    (with_request (request_of w (self m) o d) (resolved w m)).
Proof.
  intros Ho Hd Hp Hq Hv Hfar Hreq Hjson.
  rewrite update_unfold, Hd, Ho.
  rewrite (gate_far_enough _ _ _ _ _ _ _ _ _ Hp Hq Hv)
    by now rewrite min_distance_resolved.
  cbv zeta. now rewrite request_of_resolved, Hreq, Hjson.
Qed.

(** ** The claims *)

Import Examples.

(** *** Duration extraction *)

(** With a response of the expected shape, the published value is the
    rounded quotient by 60 of the seconds field of the parsed duration. *)
Lemma update_publishes_seconds_field vincenty parse_duration_str (w : World) (m : Mem)
      (o d : string) (p q : coords) (dist : Q) (response : Response)
      (fields res conns first : list (string * pyval)) (others : list pyval)
      (text : string) (td : timedelta) :
  _origin (self (resolved w m)) = Some o ->
  _destination (self (resolved w m)) = Some d ->
  get_lat_long o = Ok p -> get_lat_long d = Ok q -> vincenty p q = Ok dist ->
  ~ (dist < inject_Z (_min_distance (self m)))%Q ->
  req_get w (request_of w (self m) o d) = Ok (Some response) ->
  json response = Ok (PyDict fields) ->
  assoc "Res" fields = Some (PyDict res) ->
  assoc "Connections" res = Some (PyDict conns) ->
  assoc "Connection" conns = Some (PyList (PyDict first :: others)) ->
  assoc "duration" first = Some (PyStr text) ->
  parse_duration_str text = Ok td ->
  fst (update vincenty parse_duration_str w m) = Ok tt /\
  state (self (snd (update vincenty parse_duration_str w m))) =
    Some (py_round_div (td_seconds td) 60).
Proof.
  intros Ho Hd Hp Hq Hv Hfar Hreq Hjson H1 H2 H3 H4 Htd.
  rewrite (update_answered _ _ _ _ _ _ _ _ _ _ _ Ho Hd Hp Hq Hv Hfar Hreq Hjson).
  rewrite (read_response_duration _ _ _ _ _ _ _ _ H1 H2 H3 H4).
  simpl. rewrite Htd. split; reflexivity.
Qed.

(** For a duration from zero up to one day the published value is the
    spec's: the rounding, ties to even, of its whole seconds over 60. *)
Lemma minutes_below_a_day (td : timedelta) :
  0 <= td_total_seconds td < 86400 ->
  py_round_div (td_seconds td) 60 = Spec.minutes td.
Proof. intros H. unfold Spec.minutes. now rewrite td_seconds_below_a_day. Qed.

Example duration_PT25M :
  let m := {| self := new_sensor "n" "id" "code" "52.1,4.3" "48.8,2.3" 100;
              http_log := [] |} in
  state (self (snd (upd (answering [] (route "PT25M")) m))) = Some 25.
Proof. vm_compute. reflexivity. Qed.

Example duration_PT90S :
  let m := {| self := new_sensor "n" "id" "code" "52.1,4.3" "48.8,2.3" 100;
              http_log := [] |} in
  state (self (snd (upd (answering [] (route "PT90S")) m))) = Some 2.
Proof. vm_compute. reflexivity. Qed.

Example duration_PT150S :
  let m := {| self := new_sensor "n" "id" "code" "52.1,4.3" "48.8,2.3" 100;
              http_log := [] |} in
  state (self (snd (upd (answering [] (route "PT150S")) m))) = Some 2.
Proof. vm_compute. reflexivity. Qed.

(** C1.  The claim asks, for every duration and also for one of a day or
    more, for the rounding of the total seconds over 60.  The code reads the
    [seconds] field of the timedelta, which starts again from zero at every
    full day: for the duration "P1DT5M", 86700 seconds in all and 1445
    minutes by the claim, the update ends normally and publishes 5. *)
Theorem C1_day_long_duration_publishes_seconds_field_only :
  let m := {| self := new_sensor "n" "id" "code" "52.1,4.3" "48.8,2.3" 100;
              http_log := [] |} in
  let after := upd (answering [] (route "P1DT5M")) m in
  parse_duration_basic "P1DT5M" = Ok (mk_timedelta 0 1 0 5 0) /\
  td_total_seconds (mk_timedelta 0 1 0 5 0) = 86700 /\
  Spec.minutes (mk_timedelta 0 1 0 5 0) = 1445 /\
  fst after = Ok tt /\
  state (self (snd after)) = Some 5.
Proof. repeat split; vm_compute; reflexivity. Qed.

(** *** The location resolver *)

(** C2, as amended.  For an entity that exists, has no numeric latitude and
    longitude, whose state names no zone with a location, and whose id does
    not start with "sensor.", resolution returns absent and changes nothing:
    in particular the flag [valid_api_connection] keeps its value. *)
Theorem C2_fallthrough_returns_absent_and_keeps_flag
        (hass : Host.Hass) (id : string) (entity : Host.State) (m : Mem) :
  Host.states_get hass id = Some entity ->
  Host.has_location (Some entity) = false ->
  Host.has_location (Host.states_get hass ("zone." ++ Host.state entity)) = false ->
  Str.startswith "sensor." id = false ->
  _get_location_from_entity hass id m = (Ok None, m).
Proof.
  intros Hget Hloc Hzone Hsensor. unfold _get_location_from_entity.
  now rewrite Hget, Hloc, Hzone, Hsensor.
Qed.

Lemma C2_fallthrough_returns_absent_and_keeps_flag_witness :
  let m := {| self := new_sensor "n" "id" "code" "device_tracker.phone" "48.8,2.3" 100;
              http_log := [] |} in
  _get_location_from_entity [phone_lost] "device_tracker.phone" m = (Ok None, m).
Proof.
  intros m.
  apply (C2_fallthrough_returns_absent_and_keeps_flag
           [phone_lost] "device_tracker.phone" phone_lost m); reflexivity.
Defined.

(** C2 as stated fails: a device tracker without coordinates, away from
    every zone, resolves to absent while the flag stays true. *)
Lemma C2_fallthrough_sets_flag_counterexample :
  let m := {| self := new_sensor "n" "id" "code" "device_tracker.phone" "48.8,2.3" 100;
              http_log := [] |} in
  let r := _get_location_from_entity [phone_lost] "device_tracker.phone" m in
  Host.states_get [phone_lost] "device_tracker.phone" = Some phone_lost /\
  Host.has_location (Some phone_lost) = false /\
  Host.states_get [phone_lost] ("zone." ++ Host.state phone_lost) = None /\
  Str.startswith "sensor." "device_tracker.phone" = false /\
  ~ (fst r = Ok None /\ valid_api_connection (self (snd r)) = false).
Proof.
  repeat split; try reflexivity. intros [_ H]. vm_compute in H. discriminate.
Qed.

(** The other ways through the resolver: coordinates of the entity, of the
    zone its state names, and the state of a plain sensor. *)
Example resolver_paths (m : Mem) :
  _get_location_from_entity [phone_at "52.1" "4.3"] "device_tracker.phone" m
    = (Ok (Some "52.1,4.3"), m) /\
  _get_location_from_entity
    [{| Host.entity_id := "device_tracker.phone"; Host.state := "home";
        Host.attributes := [] |}; zone_home] "device_tracker.phone" m
    = (Ok (Some "52.0,4.0"), m) /\
  _get_location_from_entity [sensor_place] "sensor.place" m
    = (Ok (Some "Amsterdam"), m).
Proof. repeat split. Qed.

(** Only a missing entity lowers the flag. *)
Lemma missing_entity_lowers_flag (hass : Host.Hass) (id : string) (m : Mem) :
  Host.states_get hass id = None ->
  _get_location_from_entity hass id m =
    (Ok None, {| self := set_valid_api_connection false (self m);
                 http_log := http_log m |}).
Proof. intros H. unfold _get_location_from_entity. now rewrite H. Qed.

(** *** Resolution failure *)

(** C3, as amended.  When a resolved location is absent the update ends
    normally, sends nothing and leaves the published state as it was:
    unknown if it was unknown, the earlier minutes otherwise. *)
Theorem C3_unresolved_update_keeps_previous_state
        vincenty parse_duration_str (w : World) (m : Mem) :
  _origin (self (resolved w m)) = None \/ _destination (self (resolved w m)) = None ->
  fst (update vincenty parse_duration_str w m) = Ok tt /\
  state (self (snd (update vincenty parse_duration_str w m))) = state (self m) /\
  http_log (snd (update vincenty parse_duration_str w m)) = http_log m.
Proof.
  intros H. rewrite update_unfold.
  destruct (resolved_frame w m) as (Hs & Hl & _).
  destruct (_destination (self (resolved w m))) as [d|];
    [destruct (_origin (self (resolved w m))) as [o|]|];
    simpl; auto.
  destruct H; discriminate.
Qed.

Lemma C3_unresolved_update_keeps_previous_state_witness :
  let m := {| self := new_sensor "n" "id" "code" "device_tracker.phone" "48.8,2.3" 100;
              http_log := [] |} in
  let w := answering [] (route "PT25M") in
  fst (upd w m) = Ok tt /\
  state (self (snd (upd w m))) = state (self m) /\
  http_log (snd (upd w m)) = http_log m.
Proof.
  intros m w.
  apply (C3_unresolved_update_keeps_previous_state
           vincenty_example parse_duration_basic w m).
  left. reflexivity.
Defined.

(** C3 as stated fails.  A sensor follows a phone; a first update publishes
    25 minutes; then the phone is gone from the host, the origin resolves to
    absent, and the update leaves 25 in place. *)
Lemma C3_unknown_after_failed_resolution_counterexample :
  let m0 := {| self := new_sensor "n" "id" "code" "device_tracker.phone" "48.8,2.3" 100;
               http_log := [] |} in
  let m1 := snd (upd (answering [phone_at "52.1" "4.3"] (route "PT25M")) m0) in
  let w2 := answering [] (route "PT25M") in
  state (self m1) = Some 25 /\
  _origin (self (resolved w2 m1)) = None /\
  fst (upd w2 m1) = Ok tt /\
  state (self (snd (upd w2 m1))) = Some 25 /\
  state (self (snd (upd w2 m1))) <> None.
Proof. repeat split; try (vm_compute; reflexivity). vm_compute. discriminate. Qed.

(** *** Coordinate parsing in the gate *)

(** C4, as amended.  When a resolved location has no prefix of the form
    digits[.digits],digits[.digits] (a signed coordinate, a place name), the
    update raises AttributeError to its caller, having sent nothing and
    leaving the state as it was.  A location with such a prefix is parsed
    from the prefix, whatever follows. *)
Theorem C4_location_without_coordinate_prefix_raises
        vincenty parse_duration_str (w : World) (m : Mem) (o d : string) :
  _origin (self (resolved w m)) = Some o ->
  _destination (self (resolved w m)) = Some d ->
  Spec.coordinates_prefix o = false \/ Spec.coordinates_prefix d = false ->
  fst (update vincenty parse_duration_str w m) = Raise AttributeError /\
  state (self (snd (update vincenty parse_duration_str w m))) = state (self m) /\
  http_log (snd (update vincenty parse_duration_str w m)) = http_log m.
Proof.
  intros Ho Hd H. rewrite update_unfold, Hd, Ho.
  rewrite gate_parse_failure
    by (destruct H; [left | right]; now apply no_prefix_no_match).
  destruct (resolved_frame w m) as (Hs & Hl & _). simpl. auto.
Qed.

Lemma C4_location_without_coordinate_prefix_raises_witness :
  let m := {| self := new_sensor "n" "id" "code" "-52.1,4.3" "48.8,2.3" 100;
              http_log := [] |} in
  let w := answering [] (route "PT25M") in
  fst (upd w m) = Raise AttributeError /\
  state (self (snd (upd w m))) = state (self m) /\
  http_log (snd (upd w m)) = http_log m.
Proof.
  intros m w.
  apply (C4_location_without_coordinate_prefix_raises
           vincenty_example parse_duration_basic w m "-52.1,4.3" "48.8,2.3");
    [reflexivity | reflexivity | left; reflexivity].
Defined.

(** C4 as stated fails: "52.1,4.3abc" is not of the grammar's form, yet it
    is parsed as the point (52.1, 4.3); with the destination "52.1,4.3" the
    distance is zero and the update ends normally, gated, without error. *)
Lemma C4_malformed_text_with_matching_prefix_counterexample :
  let m := {| self := new_sensor "n" "id" "code" "52.1,4.3abc" "52.1,4.3" 100;
              http_log := [] |} in
  let w := answering [] (route "PT25M") in
  Spec.coordinates "52.1,4.3abc" = false /\
  _origin (self (resolved w m)) = Some "52.1,4.3abc" /\
  get_lat_long "52.1,4.3abc" = Ok (521 # 10, 43 # 10)%Q /\
  get_lat_long "52.1,4.3abc" = get_lat_long "52.1,4.3" /\
  upd w m = (Ok tt, with_state None (resolved w m)).
Proof. repeat split; vm_compute; reflexivity. Qed.

(** *** Tolerance to the shape of the response *)

(** C5, as amended.  When the update gets its answer and the decoded body
    is an object without [Res], or [Res] is an object without
    [Connections], or [Connections] is an object without [Connection], or
    [Connection] is the empty list, or a list whose first element is an
    object without [duration], the update ends normally with the state
    unknown. *)
Theorem C5_incomplete_response_gives_unknown
        vincenty parse_duration_str (w : World) (m : Mem)
        (o d : string) (p q : coords) (dist : Q) (response : Response) (body : pyval) :
  _origin (self (resolved w m)) = Some o ->
  _destination (self (resolved w m)) = Some d ->
  get_lat_long o = Ok p -> get_lat_long d = Ok q -> vincenty p q = Ok dist ->
  ~ (dist < inject_Z (_min_distance (self m)))%Q ->
  req_get w (request_of w (self m) o d) = Ok (Some response) ->
  json response = Ok body ->
  Spec.incomplete body ->
  fst (update vincenty parse_duration_str w m) = Ok tt /\
  state (self (snd (update vincenty parse_duration_str w m))) = None.
Proof.
  intros Ho Hd Hp Hq Hv Hfar Hreq Hjson Hbody.
  rewrite (update_answered _ _ _ _ _ _ _ _ _ _ _ Ho Hd Hp Hq Hv Hfar Hreq Hjson).
  rewrite (read_response_incomplete _ _ _ Hbody). split; reflexivity.
Qed.

Lemma C5_incomplete_response_gives_unknown_witness :
  let m := {| self := new_sensor "n" "id" "code" "52.1,4.3" "48.8,2.3" 100;
              http_log := [] |} in
  let body := PyDict [("Res", PyDict [("Message", PyStr "no route")])] in
  fst (upd (answering [] body) m) = Ok tt /\
  state (self (snd (upd (answering [] body) m))) = None.
Proof.
  intros m body.
  apply (C5_incomplete_response_gives_unknown
           vincenty_example parse_duration_basic (answering [] body) m
           "52.1,4.3" "48.8,2.3" (521 # 10, 43 # 10)%Q (488 # 10, 23 # 10)%Q
           394000%Q {| json := Ok body |} body);
    try reflexivity.
  - vm_compute. discriminate.
  - apply (Spec.no_Connections _ [("Message", PyStr "no route")]); reflexivity.
Defined.

(** C5 as stated fails.  In the body [{"Res": null}] nothing is found at
    [Res.Connections], yet the membership test on [None] raises TypeError:
    the update raises, and the 25 minutes published before stay. *)
Lemma C5_Res_null_raises_counterexample :
  let m := {| self := set_state (Some 25)
                        (new_sensor "n" "id" "code" "52.1,4.3" "48.8,2.3" 100);
              http_log := [] |} in
  let body := PyDict [("Res", PyNone)] in
  json_path ["Res"; "Connections"] body = None /\
  fst (upd (answering [] body) m) = Raise TypeError /\
  state (self (snd (upd (answering [] body) m))) = Some 25 /\
  ~ (fst (upd (answering [] body) m) = Ok tt /\
     state (self (snd (upd (answering [] body) m))) = None).
Proof.
  repeat split; try reflexivity. intros [H _]. vm_compute in H. discriminate.
Qed.

(** The same happens for a body that is no container at all, and for a
    first connection that is [null]. *)
Example read_response_other_types parse_duration_str (m : Mem) :
  read_response parse_duration_str PyNone m = (Raise TypeError, m) /\
  read_response parse_duration_str (PyInt 5) m = (Raise TypeError, m) /\
  read_response parse_duration_str
    (PyDict [("Res", PyDict [("Connections",
       PyDict [("Connection", PyList [PyNone])])])]) m = (Raise TypeError, m).
Proof. repeat split. Qed.

(** Each way of being incomplete, on a concrete body. *)
Example incomplete_bodies :
  Spec.incomplete (PyDict []) /\
  Spec.incomplete (PyDict [("Res", PyDict [])]) /\
  Spec.incomplete (PyDict [("Res", PyDict [("Connections", PyDict [])])]) /\
  Spec.incomplete
    (PyDict [("Res", PyDict [("Connections", PyDict [("Connection", PyList [])])])]) /\
  Spec.incomplete
    (PyDict [("Res", PyDict [("Connections",
       PyDict [("Connection", PyList [PyDict [("dep", PyStr "x")]])])])]).
Proof.
  split; [now apply Spec.no_Res|].
  split; [now eapply Spec.no_Connections|].
  split; [now eapply Spec.no_Connection|].
  split; [now eapply Spec.empty_Connection | now eapply Spec.no_duration].
Qed.

(** The tolerance ends where a value on the way is not a dictionary: the
    membership test on [None] raises TypeError. *)
Example read_response_Res_null parse_duration_str (m : Mem) :
  read_response parse_duration_str (PyDict [("Res", PyNone)]) m = (Raise TypeError, m).
Proof. reflexivity. Qed.

(** *** The proximity gate *)

(** C6, as amended.  Let the resolved origin be the text [a,b] and the
    resolved destination the text [c,d], all four unsigned decimals.  The
    distance is taken between the points these texts denote, origin first.
    When it is returned and is below the threshold, the update ends with the
    state unknown and no request sent; when it is returned and is at or
    beyond the threshold, the update sends exactly its one request, for
    these two texts; when the distance computation raises, the update
    raises the same exception, sends nothing and leaves the state. *)
Theorem C6_proximity_gate_on_coordinate_texts
        vincenty parse_duration_str (w : World) (m : Mem) (a b c d : string) :
  Spec.decimal a = true -> Spec.decimal b = true ->
  Spec.decimal c = true -> Spec.decimal d = true ->
  _origin (self (resolved w m)) = Some (a ++ "," ++ b) ->
  _destination (self (resolved w m)) = Some (c ++ "," ++ d) ->
  let after := update vincenty parse_duration_str w m in
  match vincenty (float_of_decimal a, float_of_decimal b)
                 (float_of_decimal c, float_of_decimal d) with
  | Ok dist =>
      ((dist < inject_Z (_min_distance (self m)))%Q ->
         fst after = Ok tt /\
         state (self (snd after)) = None /\
         http_log (snd after) = http_log m) /\
      (~ (dist < inject_Z (_min_distance (self m)))%Q ->
         http_log (snd after) =
           (http_log m
            ++ [request_of w (self m) (a ++ "," ++ b) (c ++ "," ++ d)])%list)
  | Raise e =>
      fst after = Raise e /\
      state (self (snd after)) = state (self m) /\
      http_log (snd after) = http_log m
  end.
Proof.
  intros Ha Hb Hc Hd Ho Hdest after. unfold after.
  pose proof (get_lat_long_pair a b Ha Hb) as Hp.
  pose proof (get_lat_long_pair c d Hc Hd) as Hq.
  destruct (resolved_frame w m) as (Hs & Hl & _).
  rewrite update_unfold, Hdest, Ho.
  destruct (vincenty _ _) as [dist|e] eqn:Hv.
  - split; intros Hdist.
    + rewrite (gate_too_close _ _ _ _ _ _ _ _ _ Hp Hq Hv)
        by now rewrite min_distance_resolved.
      simpl. auto.
    + rewrite (gate_far_enough _ _ _ _ _ _ _ _ _ Hp Hq Hv)
        by now rewrite min_distance_resolved.
      cbv zeta. rewrite request_of_resolved.
      destruct (req_get w _) as [[response|]|e]; simpl; try now rewrite Hl.
      destruct (json response) as [body|e]; simpl; try now rewrite Hl.
      rewrite (keeps_log_read_response parse_duration_str body _). simpl.
      now rewrite Hl.
  - rewrite (gate_distance_failure _ _ _ _ _ _ _ _ _ Hp Hq Hv). simpl.
    unfold state. auto.
Qed.

Lemma C6_proximity_gate_on_coordinate_texts_witness :
  let m := {| self := new_sensor "n" "id" "code" "52.1,4.3" "52.1,4.3"
                        CONF_MIN_DISTANCE_default;
              http_log := [] |} in
  let w := answering [] (route "PT25M") in
  vincenty_example (521 # 10, 43 # 10)%Q (521 # 10, 43 # 10)%Q = Ok 0%Q /\
  fst (upd w m) = Ok tt /\
  state (self (snd (upd w m))) = None /\
  http_log (snd (upd w m)) = [].
Proof.
  intros m w. split; [reflexivity|].
  pose proof (C6_proximity_gate_on_coordinate_texts
                vincenty_example parse_duration_basic w m "52.1" "4.3" "52.1" "4.3"
                eq_refl eq_refl eq_refl eq_refl eq_refl eq_refl) as H.
  cbv zeta in H.
  change (vincenty_example (float_of_decimal "52.1", float_of_decimal "4.3")
                           (float_of_decimal "52.1", float_of_decimal "4.3"))
    with (@Ok Q 0%Q) in H.
  destruct H as [H _]. apply H. reflexivity.
Defined.

(** C6 as stated fails on a pair of valid texts that are far apart and for
    which the distance computation gives no distance: the update raises
    ValueError and no request is sent, though nothing is too close. *)
Lemma C6_distance_not_computed_counterexample :
  let m := {| self := new_sensor "n" "id" "code" "0.0,0.0" "0.5,179.7"
                        CONF_MIN_DISTANCE_default;
              http_log := [] |} in
  let w := answering [] (route "PT25M") in
  let after := update vincenty_antipodal_example parse_duration_basic w m in
  Spec.coordinates "0.0,0.0" = true /\ Spec.coordinates "0.5,179.7" = true /\
  get_lat_long "0.0,0.0" = Ok (0 # 10, 0 # 10)%Q /\
  get_lat_long "0.5,179.7" = Ok (5 # 10, 1797 # 10)%Q /\
  fst after = Raise ValueError /\
  http_log (snd after) = [] /\
  http_log (snd after)
    <> [request_of w (self m) "0.0,0.0" "0.5,179.7"].
Proof. repeat split; try reflexivity. vm_compute. discriminate. Qed.

(** The values [float] gives, on examples. *)
Example float_of_decimal_values :
  float_of_decimal "52.1" = (521 # 10)%Q /\
  float_of_decimal "4.30" = (430 # 100)%Q /\
  float_of_decimal "179" = (179 # 1)%Q /\
  float_of_decimal "0.05" = (5 # 100)%Q.
Proof. repeat split. Qed.

Example gate_open_sends_one_request :
  let m := {| self := new_sensor "n" "id" "code" "52.1,4.3" "48.8,2.3"
                        CONF_MIN_DISTANCE_default;
              http_log := [] |} in
  let w := answering [] (route "PT25M") in
  http_log (snd (upd w m)) = [request_of w (self m) "52.1,4.3" "48.8,2.3"].
Proof. reflexivity. Qed.

(** *** Failures at construction *)

Lemma resolved_flag_origin_missing (w : World) (m : Mem) (id : string) :
  _origin_entity_id (self m) = Some id ->
  Host.states_get (hass w) id = None ->
  valid_api_connection (self (resolved w m)) = false.
Proof.
  intros Hid Hget. unfold resolved, resolve_locations. run.
  rewrite Hid. rewrite (missing_entity_lowers_flag _ _ _ Hget). simpl.
  destruct (_destination_entity_id (self m)) as [did|]; simpl; [|reflexivity].
  match goal with |- context [_get_location_from_entity ?h ?i ?m'] =>
    destruct (_get_location_from_entity_returns h i m') as [l ->] end.
  destruct (Host.states_get (hass w) did); reflexivity.
Qed.

Lemma resolved_flag_destination_missing (w : World) (m : Mem) (id : string) :
  _destination_entity_id (self m) = Some id ->
  Host.states_get (hass w) id = None ->
  valid_api_connection (self (resolved w m)) = false.
Proof.
  intros Hid Hget. unfold resolved, resolve_locations. run.
  destruct (_origin_entity_id (self m)) as [oid|]; simpl.
  - destruct (_get_location_from_entity_returns (hass w) oid m) as [l ->].
    destruct (Host.states_get (hass w) oid); simpl;
      rewrite Hid, (missing_entity_lowers_flag _ _ _ Hget); reflexivity.
  - rewrite Hid, (missing_entity_lowers_flag _ _ _ Hget). reflexivity.
Qed.

Lemma update_keeps_flag_down vincenty parse_duration_str (w : World) (m : Mem) :
  valid_api_connection (self (resolved w m)) = false ->
  valid_api_connection (self (snd (update vincenty parse_duration_str w m))) = false.
Proof.
  intros H. rewrite update_unfold.
  destruct (_destination _); [destruct (_origin _)|]; simpl; trivial.
  match goal with |- context [gate_and_fetch ?v ?pd ?w' ?o ?d ?m'] =>
    destruct (keeps_update_frame_gate v pd w' o d m') as (_ & F & _) end.
  destruct (valid_api_connection (self (snd _))); [|reflexivity].
  rewrite <- H. symmetry. now apply F.
Qed.

(** The sensor [run_setup] builds, in terms of the first update. *)
Lemma run_setup_sensor vincenty parse_duration_str (w : World) (config : Config)
      (data0 : list Sensor) :
  let first := first_update vincenty parse_duration_str w config in
  let sensor :=
    match fst first with
    | Ok _ => self (snd first)
    | Raise _ => set_valid_api_connection false (self (snd first))
    end in
  run_setup vincenty parse_duration_str w config data0 =
    {| data := (data0 ++ [sensor])%list;
       added_devices := if valid_api_connection sensor then [sensor] else [];
       requests := http_log (snd first) |}.
Proof.
  unfold run_setup, __init__, first_update. cbv zeta.
  destruct (update _ _ _ _) as [[[]|e] m']; reflexivity.
Qed.

(** C7.  When the first update raises, or the origin or the destination is
    an entity the host does not know, [run_setup] still returns, the sensor it
    has built has [valid_api_connection = False], and nothing is handed to
    [add_devices]. *)
Theorem C7_failed_first_update_never_registered
        vincenty parse_duration_str (w : World) (config : Config)
        (data0 : list Sensor) :
  (exists e, fst (first_update vincenty parse_duration_str w config) = Raise e) \/
  (is_trackable (CONF_ORIGIN config) = true /\
   Host.states_get (hass w) (CONF_ORIGIN config) = None) \/
  (is_trackable (CONF_DESTINATION config) = true /\
   Host.states_get (hass w) (CONF_DESTINATION config) = None) ->
  exists sensor,
    data (run_setup vincenty parse_duration_str w config data0)
      = (data0 ++ [sensor])%list /\
    valid_api_connection sensor = false /\
    added_devices (run_setup vincenty parse_duration_str w config data0) = [].
Proof.
  intros H. rewrite run_setup_sensor. cbv zeta.
  eexists. split; [reflexivity|]. simpl.
  match goal with |- ?F = false /\ _ =>
    assert (HF : F = false); [|now rewrite HF] end.
  destruct H as [[e He] | [[Ht Hget] | [Ht Hget]]].
  - now rewrite He.
  - assert (valid_api_connection
              (self (snd (first_update vincenty parse_duration_str w config))) = false).
    { apply update_keeps_flag_down.
      apply (resolved_flag_origin_missing _ _ (CONF_ORIGIN config)); trivial.
      simpl. now rewrite Ht. }
    destruct (fst _); trivial.
  - assert (valid_api_connection
              (self (snd (first_update vincenty parse_duration_str w config))) = false).
    { apply update_keeps_flag_down.
      apply (resolved_flag_destination_missing _ _ (CONF_DESTINATION config)); trivial.
      simpl. now rewrite Ht. }
    destruct (fst _); trivial.
Qed.

Lemma C7_failed_first_update_never_registered_witness :
  exists sensor,
    data (setup (answering [] (route "PT25M")) (config "-52.1,4.3" "48.8,2.3" None) [])
      = [sensor] /\
    valid_api_connection sensor = false /\
    added_devices
      (setup (answering [] (route "PT25M")) (config "-52.1,4.3" "48.8,2.3" None) []) = [].
Proof.
  apply (C7_failed_first_update_never_registered
           vincenty_example parse_duration_basic
           (answering [] (route "PT25M")) (config "-52.1,4.3" "48.8,2.3" None) []).
  left. exists AttributeError. reflexivity.
Defined.

Example construction_with_unknown_entity :
  let s := setup (answering [] (route "PT25M"))
                 (config "device_tracker.phone" "48.8,2.3" None) [] in
  map valid_api_connection (data s) = [false] /\ added_devices s = [] /\
  requests s = [].
Proof. repeat split. Qed.

Example construction_with_network_error :
  let w := {| hass := []; now_isoformat := "2019-03-01T08:00:00";
              req_get := fun _ => Raise RequestException |} in
  let s := setup w (config "52.1,4.3" "48.8,2.3" None) [] in
  map valid_api_connection (data s) = [false] /\ added_devices s = [].
Proof. repeat split. Qed.

(** *** The display name *)

Lemma run_setup_name vincenty parse_duration_str (w : World) (config : Config)
      (data0 : list Sensor) :
  exists sensor,
    data (run_setup vincenty parse_duration_str w config data0)
      = (data0 ++ [sensor])%list /\
    name sensor = config_get_name config.
Proof.
  rewrite run_setup_sensor. cbv zeta. eexists. split; [reflexivity|].
  unfold first_update.
  match goal with |- context [update ?v ?pd ?w' ?m] =>
    destruct (keeps_update_frame_update v pd w' m) as ((Hn & _) & _) end.
  unfold name. destruct (fst _); simpl; exact Hn.
Qed.

(** C8.  The claim gives "Here Travel Time", the value of [DEFAULT_NAME], as
    the name of a sensor configured without [name].  [run_setup] does not
    use [DEFAULT_NAME]: the sensor it registers is named "Here Public
    Transport". *)
Theorem C8_name_without_CONF_NAME :
  let s := setup (answering [] (route "PT25M")) (config "52.1,4.3" "48.8,2.3" None) [] in
  CONF_NAME (config "52.1,4.3" "48.8,2.3" None) = None /\
  map name (added_devices s) = ["Here Public Transport"] /\
  map name (added_devices s) <> [DEFAULT_NAME].
Proof. repeat split. vm_compute. discriminate. Qed.

(** *** The state invariant *)

Lemma update_keeps_published vincenty parse_duration_str (w : World) (m : Mem) :
  Spec.published (state (self m)) ->
  Spec.published (state (self (snd (update vincenty parse_duration_str w m)))).
Proof. apply keeps_update_frame_update. Qed.

Lemma __init___published vincenty parse_duration_str (w : World)
      (name app_id app_code origin destination : string) (min_distance : Z) :
  Spec.published
    (state (self (__init__ vincenty parse_duration_str w name app_id app_code
                           origin destination min_distance))).
Proof.
  unfold __init__. cbv zeta.
  match goal with |- context [update ?v ?pd ?w' ?m] =>
    pose proof (update_keeps_published v pd w' m I) as H;
    destruct (update v pd w' m) as [[[]|e] m'] end; exact H.
Qed.

Lemma after_updates_published vincenty parse_duration_str (ws : list World) (m : Mem) :
  Spec.published (state (self m)) ->
  Spec.published (state (self (after_updates vincenty parse_duration_str m ws))).
Proof.
  revert m. induction ws as [|w ws IH]; intros m Hm; simpl; [exact Hm|].
  apply IH. now apply update_keeps_published.
Qed.

(** C9.  From construction on, after any number of updates, raising or not,
    the state of the sensor is [None] or a non-negative integer. *)
Theorem C9_state_is_unknown_or_non_negative
        vincenty parse_duration_str (w0 : World)
        (name app_id app_code origin destination : string) (min_distance : Z)
        (ws : list World) :
  Spec.published
    (state (self (after_updates vincenty parse_duration_str
                    (__init__ vincenty parse_duration_str w0 name app_id app_code
                              origin destination min_distance)
                    ws))).
Proof. apply after_updates_published, __init___published. Qed.

(** A value that [update] writes is a number of minutes within a day. *)
Lemma published_minutes_range (td : timedelta) :
  0 <= py_round_div (td_seconds td) 60 <= 1440.
Proof.
  pose proof (td_seconds_range td) as R.
  pose proof (py_round_div_nearest (td_seconds td) 60 ltac:(lia)).
  lia.
Qed.

(** A negative duration too is published as a non-negative number. *)
Example negative_duration_published :
  let m := {| self := new_sensor "n" "id" "code" "52.1,4.3" "48.8,2.3" 100;
              http_log := [] |} in
  state (self (snd (upd (answering [] (route "-PT5M")) m))) = Some 1435.
Proof. vm_compute. reflexivity. Qed.

(** *** Zones without coordinates *)

Lemma resolve_zone_loop_find (entities : list Host.State) (v : string) :
  resolve_zone_loop entities v =
  option_map _get_location_from_attributes (find (zone_named v) entities).
Proof.
  induction entities as [|e entities IH]; simpl; [reflexivity|].
  now destruct (zone_named v e).
Qed.

(** On a string the zone matcher gives a string. *)
Lemma _resolve_zone_some (hass : Host.Hass) (v : string) :
  exists location, _resolve_zone hass (Some v) = Some location.
Proof. unfold _resolve_zone. destruct (resolve_zone_loop _ _); eauto. Qed.

Lemma resolved_static (w : World) (m : Mem) :
  _origin_entity_id (self m) = None ->
  _destination_entity_id (self m) = None ->
  _origin (self (resolved w m)) = _resolve_zone (hass w) (_origin (self m)) /\
  _destination (self (resolved w m)) = _resolve_zone (hass w) (_destination (self m)).
Proof.
  intros Ho Hd. unfold resolved, resolve_locations. run.
  rewrite Ho. simpl. rewrite Hd. simpl. auto.
Qed.

(** A text with None for a coordinate is no coordinate pair:
    "None,<longitude>" never parses, and "<latitude>,None" does not when the
    latitude is printed without a comma, as every number is. *)
Lemma get_lat_long_None_latitude (x : string) :
  get_lat_long ("None," ++ x) = Raise AttributeError.
Proof. reflexivity. Qed.

Lemma split1_append_sep (sep : ascii) (t y : string) :
  Str.split1 sep t = (t, None) ->
  Str.split1 sep (t ++ String sep y) = (t, Some y).
Proof.
  induction t as [|c t IH]; simpl.
  - intros _. now rewrite Ascii.eqb_refl.
  - destruct (Ascii.eqb c sep); [discriminate|].
    destruct (Str.split1 sep t) as [a b]. intros [= -> ->].
    now rewrite IH.
Qed.

Lemma get_lat_long_None_longitude (t : string) :
  Str.split1 ","%char t = (t, None) ->
  get_lat_long (t ++ ",None") = Raise AttributeError.
Proof.
  intros Ht. unfold get_lat_long, COORD_PATTERN_match.
  destruct (match_number (t ++ ",None")) as [[g1 r]|] eqn:E; [|reflexivity].
  destruct r as [|c r]; [reflexivity|].
  destruct (Ascii.eqb_spec c ","%char) as [->|_]; [|reflexivity].
  apply match_number_sound in E as (Hs & _ & Hsplit).
  pose proof (split1_append_sep ","%char t "None" Ht) as H1.
  change (t ++ ",None") with (t ++ String ","%char "None") in Hs.
  rewrite Hs, Hsplit in H1. simpl in H1. injection H1 as _ ->. reflexivity.
Qed.

(** C10, as amended.  Let [z] be the zone that the scan finds for the name
    [v], the first of that name in the host's list, and let it lack its
    latitude or its longitude.  Zone matching returns the formatted
    attributes of [z], with the text None for each one that is missing:
    "None,None" when both are, "None,<longitude>" without a latitude,
    "<latitude>,None" without a longitude; never the absent value.  When
    the latitude is missing, or its text holds no comma, the pattern does
    not match this text, and every update whose resolved origin or
    destination is this text, the other being present, raises
    AttributeError out of the gate. *)
Theorem C10_zone_lacking_an_attribute_resolves_to_None_text
        (hass0 : Host.Hass) (v : string) (z : Host.State) :
  let lat := assoc Host.ATTR_LATITUDE (Host.attributes z) in
  let long := assoc Host.ATTR_LONGITUDE (Host.attributes z) in
  let text := _get_location_from_attributes z in
  find (zone_named v) (Host.states_all hass0) = Some z ->
  lat = None \/ long = None ->
  _resolve_zone hass0 (Some v) = Some text /\
  (lat = None -> long = None -> text = "None,None") /\
  (lat = None -> text = "None," ++ Host.format_s long) /\
  (long = None -> text = Host.format_s lat ++ ",None") /\
  (lat = None \/
   Str.split1 ","%char (Host.format_s lat) = (Host.format_s lat, None) ->
   get_lat_long text = Raise AttributeError /\
   forall vincenty parse_duration_str (w : World) (m : Mem) (other : string),
     (_origin (self (resolved w m)) = Some text /\
      _destination (self (resolved w m)) = Some other) \/
     (_origin (self (resolved w m)) = Some other /\
      _destination (self (resolved w m)) = Some text) ->
     fst (update vincenty parse_duration_str w m) = Raise AttributeError).
Proof.
  intros lat long text Hfind Hmissing.
  assert (Hz : _resolve_zone hass0 (Some v) = Some text).
  { unfold _resolve_zone. now rewrite resolve_zone_loop_find, Hfind. }
  split; [exact Hz|].
  split; [intros Hlat Hlong; unfold text, _get_location_from_attributes;
          fold lat long; now rewrite Hlat, Hlong|].
  split; [intros Hlat; unfold text, _get_location_from_attributes;
          fold lat long; now rewrite Hlat|].
  split; [intros Hlong; unfold text, _get_location_from_attributes;
          fold lat long; now rewrite Hlong|].
  intros Hcomma.
  assert (Hparse : get_lat_long text = Raise AttributeError).
  { unfold text, _get_location_from_attributes. fold lat long.
    destruct Hcomma as [Hlat | Hcomma].
    - rewrite Hlat. apply get_lat_long_None_latitude.
    - destruct Hmissing as [Hlat | Hlong].
      + rewrite Hlat. apply get_lat_long_None_latitude.
      + rewrite Hlong. now apply get_lat_long_None_longitude. }
  split; [exact Hparse|].
  assert (Hmatch : COORD_PATTERN_match text = None).
  { unfold get_lat_long in Hparse.
    destruct (COORD_PATTERN_match text) as [[[g1 g2] r]|];
      [discriminate | reflexivity]. }
  intros vincenty parse_duration_str w m other Hv.
  rewrite update_unfold.
  destruct Hv as [[Ho Hd] | [Ho Hd]]; rewrite Hd, Ho;
    now rewrite gate_parse_failure by auto.
Qed.

Lemma C10_zone_lacking_an_attribute_resolves_to_None_text_witness :
  let m := {| self := new_sensor "n" "id" "code" "Home" "Depot" 100;
              http_log := [] |} in
  let w := answering [zone_home; zone_without_latitude] (route "PT25M") in
  _resolve_zone (hass w) (Some "Depot") = Some "None,4.0" /\
  get_lat_long "None,4.0" = Raise AttributeError /\
  fst (upd w m) = Raise AttributeError.
Proof.
  intros m w.
  destruct (C10_zone_lacking_an_attribute_resolves_to_None_text
              [zone_home; zone_without_latitude] "Depot" zone_without_latitude
              eq_refl (or_introl eq_refl))
    as (Hz & _ & _ & _ & Hraise).
  destruct (Hraise (or_introl eq_refl)) as [Hparse Hupdate].
  split; [exact Hz|]. split; [exact Hparse|].
  apply (Hupdate vincenty_example parse_duration_basic w m "52.0,4.0").
  right. split; reflexivity.
Defined.

(** C10 as stated fails in two ways.  A zone of the name asked for that has
    a longitude and no latitude resolves to "None,4.0", not to "None,None";
    and a zone without coordinates that comes after a zone of the same name
    is not reached: the first zone's coordinates are returned. *)
Lemma C10_None_None_counterexample :
  (zone_named "Depot" zone_without_latitude = true /\
   assoc Host.ATTR_LATITUDE (Host.attributes zone_without_latitude) = None /\
   _resolve_zone [zone_without_latitude] (Some "Depot") = Some "None,4.0" /\
   _resolve_zone [zone_without_latitude] (Some "Depot") <> Some "None,None") /\
  (zone_named "Home" zone_home_bare = true /\
   assoc Host.ATTR_LATITUDE (Host.attributes zone_home_bare) = None /\
   assoc Host.ATTR_LONGITUDE (Host.attributes zone_home_bare) = None /\
   _resolve_zone [zone_home; zone_home_bare] (Some "Home") = Some "52.0,4.0" /\
   _resolve_zone [zone_home; zone_home_bare] (Some "Home") <> Some "None,None").
Proof. repeat split; try reflexivity; vm_compute; discriminate. Qed.

Lemma zone_with_a_missing_attribute_is_unparsable
      (hass : Host.Hass) (v : string) (z : Host.State) :
  find (zone_named v) (Host.states_all hass) = Some z ->
  assoc Host.ATTR_LATITUDE (Host.attributes z) = None \/
  (assoc Host.ATTR_LONGITUDE (Host.attributes z) = None /\
   let t := Host.format_s (assoc Host.ATTR_LATITUDE (Host.attributes z)) in
   Str.split1 ","%char t = (t, None)) ->
  exists text,
    _resolve_zone hass (Some v) = Some text /\
    get_lat_long text = Raise AttributeError.
Proof.
  intros Hfind H. unfold _resolve_zone.
  rewrite resolve_zone_loop_find, Hfind. simpl.
  eexists. split; [reflexivity|]. unfold _get_location_from_attributes.
  destruct H as [-> | [-> Ht]].
  - apply get_lat_long_None_latitude.
  - now apply get_lat_long_None_longitude.
Qed.

(** The zone matcher of the spec's example. *)
Example resolve_zone_Home :
  _resolve_zone [zone_home; zone_bare] (Some "Home") = Some "52.0,4.0" /\
  _resolve_zone [zone_home; zone_bare] (Some "Elsewhere") = Some "Elsewhere" /\
  _resolve_zone [zone_home; zone_bare] None = None.
Proof. repeat split. Qed.

(** * Further properties of the code *)

(** ** get_lat_long *)

(** X1.  A text made of a decimal, a comma and a decimal is parsed whole:
    the latitude is the value of the first decimal and the longitude the
    value of the second, no digit is left over. *)
Theorem get_lat_long_of_coordinates (a b : string) :
  Spec.decimal a = true -> Spec.decimal b = true ->
  get_lat_long (a ++ "," ++ b) = Ok (float_of_decimal a, float_of_decimal b).
Proof.
  intros Ha Hb. unfold get_lat_long.
  rewrite <- (append_empty_r (a ++ "," ++ b)).
  now rewrite (COORD_PATTERN_match_full a b "" Ha Hb eq_refl).
Qed.

Lemma get_lat_long_of_coordinates_witness :
  get_lat_long ("52.10" ++ "," ++ "4") = Ok (float_of_decimal "52.10", float_of_decimal "4").
Proof. apply (get_lat_long_of_coordinates "52.10" "4"); reflexivity. Defined.

(** X2.  [get_lat_long] returns exactly on the texts that start with a
    decimal, a comma and a decimal; on every other text it raises, and the
    exception is AttributeError. *)
Theorem get_lat_long_returns_iff_prefix (s : string) :
  match get_lat_long s with
  | Ok _ => Spec.coordinates_prefix s = true
  | Raise e => e = AttributeError /\ Spec.coordinates_prefix s = false
  end.
Proof.
  unfold get_lat_long.
  destruct (COORD_PATTERN_match s) as [[[g1 g2] rest]|] eqn:E.
  - apply COORD_PATTERN_match_sound in E as [-> Hc].
    now apply coordinates_prefix_intro.
  - split; [reflexivity|].
    destruct (Spec.coordinates_prefix s) eqn:P; [|reflexivity].
    now apply COORD_PATTERN_match_complete in P.
Qed.

(** X4.  What follows a coordinate pair is ignored, as long as it does not
    go on with a digit or a dot: the text with the addition is parsed to the
    same point as the pair alone. *)
Theorem get_lat_long_ignores_what_follows (s x : string) :
  Spec.coordinates s = true -> starts_clear x = true ->
  get_lat_long (s ++ x) = get_lat_long s.
Proof.
  intros Hs Hx. unfold Spec.coordinates in Hs.
  destruct (Str.split1 ","%char s) as [a [b|]] eqn:E; [|discriminate].
  apply andb_prop in Hs as [Ha Hb]. apply split1_inv in E. subst s.
  change (String ","%char b) with ("," ++ b).
  unfold get_lat_long. rewrite (COORD_PATTERN_match_full a b x Ha Hb Hx).
  rewrite <- (append_empty_r (a ++ "," ++ b)).
  now rewrite (COORD_PATTERN_match_full a b "" Ha Hb eq_refl).
Qed.

Lemma get_lat_long_ignores_what_follows_witness :
  get_lat_long ("52.1,4.3" ++ " (home)") = get_lat_long "52.1,4.3".
Proof.
  apply (get_lat_long_ignores_what_follows "52.1,4.3" " (home)"); reflexivity.
Defined.

Lemma digit_val_nonneg (c : ascii) : Str.is_digit c = true -> 0 <= Str.digit_val c.
Proof.
  unfold Str.is_digit, Str.digit_val. intros H.
  apply andb_prop in H as [H _]. apply Nat.leb_le in H. lia.
Qed.

Lemma nat_value_from_nonneg (s : string) (acc : Z) :
  Str.all_digits s = true -> 0 <= acc -> 0 <= Str.nat_value_from acc s.
Proof.
  revert acc. induction s as [|c s IH]; intros acc Hd Hacc; [exact Hacc|].
  cbn [Str.all_digits] in Hd. apply andb_prop in Hd as [Hc Hd].
  change (0 <= Str.nat_value_from (10 * acc + Str.digit_val c) s).
  apply IH; [exact Hd|].
  pose proof (digit_val_nonneg c Hc). lia.
Qed.

Lemma all_digits_append (a b : string) :
  Str.all_digits a = true -> Str.all_digits b = true ->
  Str.all_digits (a ++ b) = true.
Proof.
  intros Ha Hb. induction a as [|c a IH]; simpl in *; [exact Hb|].
  apply andb_prop in Ha as [Hc Ha]. now rewrite Hc, IH.
Qed.

Lemma float_of_decimal_nonneg (t : string) :
  Spec.decimal t = true -> (0 <= float_of_decimal t)%Q.
Proof.
  intros Ht. apply decimal_inv in Ht as (ds & He & Hd & [->|(fs & Hfe & Hfd & ->)]);
    unfold float_of_decimal.
  - rewrite <- (append_empty_r ds), split1_digits by (trivial || reflexivity).
    simpl. rewrite append_empty_r. unfold Qle. simpl.
    pose proof (nat_value_from_nonneg ds 0 Hd ltac:(lia)).
    unfold Str.nat_value. lia.
  - rewrite split1_digits by (trivial || reflexivity). simpl.
    rewrite append_empty_r. unfold Qle. simpl.
    pose proof (nat_value_from_nonneg (ds ++ fs) 0
                  (all_digits_append _ _ Hd Hfd) ltac:(lia)).
    unfold Str.nat_value. lia.
Qed.

(** X3.  A point that [get_lat_long] returns has a latitude and a longitude
    that are not negative: no text is parsed to a point south of the equator
    or west of Greenwich. *)
Theorem get_lat_long_is_never_negative (s : string) (lat long : Q) :
  get_lat_long s = Ok (lat, long) -> (0 <= lat)%Q /\ (0 <= long)%Q.
Proof.
  unfold get_lat_long, COORD_PATTERN_match.
  destruct (match_number s) as [[g1 r]|] eqn:E1; [|discriminate].
  destruct r as [|c r]; [discriminate|].
  destruct (Ascii.eqb c ","%char); [|discriminate].
  destruct (match_number r) as [[g2 rest]|] eqn:E2; [|discriminate].
  intros [= <- <-].
  apply match_number_sound in E1 as (_ & H1 & _).
  apply match_number_sound in E2 as (_ & H2 & _).
  split; now apply float_of_decimal_nonneg.
Qed.

Lemma get_lat_long_is_never_negative_witness :
  (0 <= 521 # 10)%Q /\ (0 <= 43 # 10)%Q.
Proof.
  apply (get_lat_long_is_never_negative "52.1,4.3" (521 # 10) (43 # 10)).
  reflexivity.
Defined.

(** X5.  A coordinate pair with a minus sign before its latitude or before
    its longitude is not parsed: [get_lat_long] raises AttributeError. *)
Theorem get_lat_long_raises_on_a_minus_sign (a b : string) :
  (exists x, a = "-" ++ x) \/
  (Str.split1 ","%char a = (a, None) /\ exists x, b = "-" ++ x) ->
  get_lat_long (a ++ "," ++ b) = Raise AttributeError.
Proof.
  intros [[x ->] | [Ha [x ->]]]; [reflexivity|].
  unfold get_lat_long, COORD_PATTERN_match.
  destruct (match_number (a ++ "," ++ "-" ++ x)) as [[g1 r]|] eqn:E; [|reflexivity].
  destruct r as [|c r]; [reflexivity|].
  destruct (Ascii.eqb_spec c ","%char) as [->|_]; [|reflexivity].
  apply match_number_sound in E as (Hs & _ & Hsplit).
  pose proof (split1_append_sep ","%char a ("-" ++ x) Ha) as H1.
  change (a ++ "," ++ "-" ++ x) with (a ++ String ","%char ("-" ++ x)) in Hs.
  rewrite Hs, Hsplit in H1. simpl in H1. injection H1 as _ ->. reflexivity.
Qed.

Lemma get_lat_long_raises_on_a_minus_sign_witness :
  get_lat_long ("52.1" ++ "," ++ "-4.3") = Raise AttributeError.
Proof.
  apply (get_lat_long_raises_on_a_minus_sign "52.1" "-4.3").
  right. split; [reflexivity | now exists "4.3"].
Defined.

(** ** _resolve_zone *)

Lemma find_none_intro {A} (f : A -> bool) (l : list A) :
  (forall x, In x l -> f x = false) -> find f l = None.
Proof.
  induction l as [|a l IH]; simpl; intros H; [reflexivity|].
  rewrite (H a) by now left. apply IH. intros x Hx. apply H. now right.
Qed.

Lemma find_first {A} (f : A -> bool) (pre post : list A) (z : A) :
  (forall x, In x pre -> f x = false) -> f z = true ->
  find f (pre ++ z :: post)%list = Some z.
Proof.
  induction pre as [|a pre IH]; simpl; intros H Hz; [now rewrite Hz|].
  rewrite (H a) by now left. apply IH; [|exact Hz].
  intros x Hx. apply H. now right.
Qed.

(** X6.  A value that is the name of no zone of the host passes through the
    zone matcher unchanged, whatever other entities bear that name. *)
Theorem _resolve_zone_passes_other_names (hass : Host.Hass) (v : string) :
  (forall e, In e (Host.states_all hass) ->
             Host.domain e = "zone" -> Host.name e <> v) ->
  _resolve_zone hass (Some v) = Some v.
Proof.
  intros H. unfold _resolve_zone.
  rewrite resolve_zone_loop_find, find_none_intro; [reflexivity|].
  intros e He. unfold zone_named.
  destruct (String.eqb_spec (Host.domain e) "zone") as [Hd|_]; [|reflexivity].
  simpl. apply String.eqb_neq. now apply H.
Qed.

Lemma _resolve_zone_passes_other_names_witness :
  _resolve_zone [phone_at "52.1" "4.3"; zone_home] (Some "phone") = Some "phone".
Proof.
  apply (_resolve_zone_passes_other_names [phone_at "52.1" "4.3"; zone_home] "phone").
  intros e [<- | [<- | []]] Hd; [discriminate Hd | discriminate].
Defined.

(** X7.  Among several zones of the same name the one the host lists first
    gives the location; what comes after it is not looked at. *)
Theorem _resolve_zone_takes_the_first_zone
        (pre post : list Host.State) (z : Host.State) (v : string) :
  (forall e, In e pre -> zone_named v e = false) ->
  Host.domain z = "zone" -> Host.name z = v ->
  _resolve_zone (pre ++ z :: post)%list (Some v)
  = Some (_get_location_from_attributes z).
Proof.
  intros Hpre Hd Hn. unfold _resolve_zone, Host.states_all.
  rewrite resolve_zone_loop_find, (find_first _ pre post z Hpre); [reflexivity|].
  unfold zone_named. now rewrite Hd, Hn, !String.eqb_refl.
Qed.

Lemma _resolve_zone_takes_the_first_zone_witness :
  _resolve_zone ([sensor_place] ++ zone_home :: [zone_bare; zone_home])%list
                (Some "Home")
  = Some (_get_location_from_attributes zone_home).
Proof.
  apply (_resolve_zone_takes_the_first_zone
           [sensor_place] [zone_bare; zone_home] zone_home "Home");
    try reflexivity.
  intros e [<- | []]. reflexivity.
Defined.

(** ** _get_location_from_entity *)

(** X8.  Resolving an entity never raises and touches nothing of the sensor
    but the flag: the flag is lowered when the host does not know the
    entity, and is otherwise left as it is. *)
Theorem _get_location_from_entity_only_lowers_the_flag
        (hass : Host.Hass) (id : string) (m : Mem) :
  exists location,
    fst (_get_location_from_entity hass id m) = Ok location /\
    snd (_get_location_from_entity hass id m) =
      if known hass (Some id) then m
      else {| self := set_valid_api_connection false (self m);
              http_log := http_log m |}.
Proof.
  destruct (_get_location_from_entity_returns hass id m) as [location ->].
  exists location. simpl. now destruct (Host.states_get hass id).
Qed.



(** ** update *)

Ltac keeps_with pre fin :=
  repeat first
    [ apply keeps_bind; [apply pre| |intros ?]
    | match goal with
      | |- keeps _ (match ?x with _ => _ end) => destruct x
      | |- keeps _ (if ?b then _ else _) => destruct b
      end
    | solve [let m := fresh "m" in intros m; simpl; fin] ].

Lemma preorder_flag_kept : preorder flag_kept.
Proof. split; unfold flag_kept; [reflexivity | congruence]. Qed.

Lemma preorder_locations_kept : preorder locations_kept.
Proof.
  split; unfold locations_kept; [now repeat split | intuition congruence].
Qed.

Lemma preorder_state_step : preorder state_step.
Proof.
  split; unfold state_step; [now left|].
  intros a b c [H1|H1] [H2|H2]; try (now right); [left; congruence|].
  right. now rewrite H2.
Qed.

Section UpdateFacts.

Variable vincenty : coords -> coords -> result Q.
Variable parse_duration_str : string -> result timedelta.

Abbreviation update := (update vincenty parse_duration_str).
Abbreviation gate_and_fetch := (gate_and_fetch vincenty parse_duration_str).
Abbreviation read_response := (read_response parse_duration_str).

Lemma keeps_flag_gate (w : World) (o d : string) :
  keeps flag_kept (gate_and_fetch w o d).
Proof.
  unfold gate_and_fetch, read_response.
  keeps_with preorder_flag_kept ltac:(reflexivity).
Qed.

Lemma keeps_locations_gate (w : World) (o d : string) :
  keeps locations_kept (gate_and_fetch w o d).
Proof.
  unfold gate_and_fetch, read_response.
  keeps_with preorder_locations_kept ltac:(now repeat split).
Qed.

Lemma keeps_state_step_gate (w : World) (o d : string) :
  keeps state_step (gate_and_fetch w o d).
Proof.
  unfold gate_and_fetch, read_response.
  keeps_with preorder_state_step
    ltac:(first [ now left
                | right; simpl; first [exact I | apply published_minutes_range] ]).
Qed.

(** A raising response reader has written nothing. *)
Lemma read_response_raises_clean (d : pyval) (m : Mem) (e : exn) :
  fst (read_response d m) = Raise e -> snd (read_response d m) = m.
Proof.
  unfold read_response. run.
  repeat match goal with
         | |- context [match ?x with Ok _ => _ | Raise _ => _ end] => destruct x; simpl
         | |- context [if ?b then _ else _] => destruct b; simpl
         end; intros H; try discriminate H; reflexivity.
Qed.

(** The outcomes of the gate, one by one. *)
Lemma gate_outcomes (w : World) (o d : string) (m : Mem) :
  let r := request_of w (self m) o d in
  (exists e, gate_and_fetch w o d m = (Raise e, m)) \/
  gate_and_fetch w o d m = (Ok tt, with_state None m) \/
  (exists e, gate_and_fetch w o d m = (Raise e, with_request r m)) \/
  gate_and_fetch w o d m = (Ok tt, with_request r m) \/
  (exists body, gate_and_fetch w o d m = read_response body (with_request r m)).
Proof.
  intros r.
  destruct (get_lat_long o) as [p|e] eqn:Ho;
    [|left; exists e; unfold gate_and_fetch; run; now rewrite Ho].
  destruct (get_lat_long d) as [q|e] eqn:Hd;
    [|left; exists e; unfold gate_and_fetch; run; rewrite Ho; simpl;
      now rewrite Hd].
  destruct (vincenty p q) as [dist|e] eqn:Hv;
    [|left; exists e; unfold gate_and_fetch; run; rewrite Ho; simpl;
      rewrite Hd; simpl; now rewrite Hv].
  destruct (Qlt_le_dec dist (inject_Z (_min_distance (self m)))) as [Hlt|Hge].
  - right. left. exact (gate_too_close _ _ _ _ _ _ _ _ _ Ho Hd Hv Hlt).
  - right. right.
    rewrite (gate_far_enough _ _ _ _ _ _ _ _ _ Ho Hd Hv (Qle_not_lt _ _ Hge)).
    cbv zeta. fold r.
    destruct (req_get w r) as [[response|]|e]; [|now right; left|left; now exists e].
    destruct (json response) as [body|e]; [|left; now exists e].
    right. right. now exists body.
Qed.

End UpdateFacts.

(** X10.  An update sends at most one request; a request that is sent
    carries the resolved origin as [dep] and the resolved destination as
    [arr], just as they are. *)
Theorem update_sends_at_most_one_request
        vincenty parse_duration_str (w : World) (m : Mem) :
  http_log (snd (update vincenty parse_duration_str w m)) = http_log m \/
  exists o d,
    _origin (self (resolved w m)) = Some o /\
    _destination (self (resolved w m)) = Some d /\
    http_log (snd (update vincenty parse_duration_str w m))
    = (http_log m ++ [request_of w (self m) o d])%list.
Proof.
  rewrite update_unfold.
  destruct (resolved_frame w m) as (_ & Hl & _).
  destruct (_destination (self (resolved w m))) as [d|] eqn:Hd; [|now left].
  destruct (_origin (self (resolved w m))) as [o|] eqn:Ho; [|now left].
  pose proof (gate_outcomes vincenty parse_duration_str w o d (resolved w m)) as G.
  cbv zeta in G. rewrite request_of_resolved in G.
  destruct G as [[e ->] | [-> | [[e ->] | [-> | [body ->]]]]]; simpl;
    try (now left); right; exists o, d; repeat split; try now rewrite Hl.
  rewrite (keeps_log_read_response parse_duration_str body _). simpl.
  now rewrite Hl.
Qed.

Lemma raising_update_leaves_resolved
      vincenty parse_duration_str (w : World) (m : Mem) (e : exn) :
  fst (update vincenty parse_duration_str w m) = Raise e ->
  self (snd (update vincenty parse_duration_str w m)) = self (resolved w m) /\
  state (self (snd (update vincenty parse_duration_str w m))) = state (self m).
Proof.
  intros H.
  assert (Hself : self (snd (update vincenty parse_duration_str w m))
                  = self (resolved w m)).
  { revert H. rewrite update_unfold.
    destruct (_destination (self (resolved w m))) as [d|]; [|discriminate].
    destruct (_origin (self (resolved w m))) as [o|]; [|discriminate].
    pose proof (gate_outcomes vincenty parse_duration_str w o d (resolved w m)) as G.
    cbv zeta in G.
    destruct G as [[e' ->] | [-> | [[e' ->] | [-> | [body ->]]]]]; simpl;
      try discriminate; try reflexivity.
    intros H. now rewrite (read_response_raises_clean _ _ _ _ H). }
  split; [exact Hself|]. unfold state. rewrite Hself.
  now destruct (resolved_frame w m) as (Hs & _).
Qed.

(** X11.  An update that raises has not written the state: the sensor is
    left as the resolution of its locations left it, with the state it had
    before the update. *)
Theorem update_that_raises_keeps_the_state
        vincenty parse_duration_str (w : World) (m : Mem) (e : exn) :
  fst (update vincenty parse_duration_str w m) = Raise e ->
  self (snd (update vincenty parse_duration_str w m)) = self (resolved w m) /\
  state (self (snd (update vincenty parse_duration_str w m))) = state (self m).
Proof. apply raising_update_leaves_resolved. Qed.

Lemma update_that_raises_keeps_the_state_witness :
  let m := {| self := set_state (Some 25)
                        (new_sensor "n" "id" "code" "52.1,4.3" "Amsterdam" 100);
              http_log := [] |} in
  let w := answering [] (route "PT25M") in
  self (snd (upd w m)) = self (resolved w m) /\
  state (self (snd (upd w m))) = Some 25.
Proof.
  intros m w.
  apply (update_that_raises_keeps_the_state
           vincenty_example parse_duration_basic w m AttributeError).
  reflexivity.
Defined.

Lemma flag_after_update vincenty parse_duration_str (w : World) (m : Mem) :
  valid_api_connection (self (snd (update vincenty parse_duration_str w m))) =
  valid_api_connection (self m)
  && known (hass w) (_origin_entity_id (self m))
  && known (hass w) (_destination_entity_id (self m)).
Proof.
  assert (Hres : valid_api_connection (self (resolved w m)) =
                 valid_api_connection (self m)
                 && known (hass w) (_origin_entity_id (self m))
                 && known (hass w) (_destination_entity_id (self m))).
  { unfold resolved, resolve_locations, known. run.
    destruct (_origin_entity_id (self m)) as [oid|]; simpl.
    - destruct (_get_location_from_entity_returns (hass w) oid m) as [lo ->].
      destruct (Host.states_get (hass w) oid); simpl;
        (destruct (_destination_entity_id (self m)) as [did|]; simpl;
         [ match goal with |- context [_get_location_from_entity ?h ?i ?m'] =>
             destruct (_get_location_from_entity_returns h i m') as [ld ->] end;
           destruct (Host.states_get (hass w) did); simpl
         | ]);
        destruct (valid_api_connection (self m)); reflexivity.
    - destruct (_destination_entity_id (self m)) as [did|]; simpl.
      + destruct (_get_location_from_entity_returns (hass w) did m) as [ld ->].
        destruct (Host.states_get (hass w) did); simpl;
          destruct (valid_api_connection (self m)); reflexivity.
      + destruct (valid_api_connection (self m)); reflexivity. }
  rewrite <- Hres, update_unfold.
  destruct (_destination (self (resolved w m))) as [d|]; [|reflexivity].
  destruct (_origin (self (resolved w m))) as [o|]; [|reflexivity].
  apply (keeps_flag_gate vincenty parse_duration_str w o d).
Qed.

(** X12.  After an update the flag stands exactly when it stood before and
    the host knows every entity the sensor follows: an update lowers the
    flag for an unknown entity and never raises it again. *)
Theorem update_flag vincenty parse_duration_str (w : World) (m : Mem) :
  valid_api_connection (self (snd (update vincenty parse_duration_str w m))) =
  valid_api_connection (self m)
  && known (hass w) (_origin_entity_id (self m))
  && known (hass w) (_destination_entity_id (self m)).
Proof. apply flag_after_update. Qed.

(** X13.  [run_setup] hands the sensor to [add_devices] exactly when the
    first update does not raise and the host knows the origin and the
    destination, where they are entity ids. *)
Theorem run_setup_registers_iff
        vincenty parse_duration_str (w : World) (config : Config)
        (data0 : list Sensor) :
  added_devices (run_setup vincenty parse_duration_str w config data0) <> [] <->
  fst (first_update vincenty parse_duration_str w config) = Ok tt /\
  known (hass w) (entity_id_of (CONF_ORIGIN config)) = true /\
  known (hass w) (entity_id_of (CONF_DESTINATION config)) = true.
Proof.
  rewrite run_setup_sensor. cbv zeta. simpl.
  pose proof (flag_after_update vincenty parse_duration_str w
    {| self := new_sensor (config_get_name config) (CONF_APP_ID config)
                 (CONF_APP_CODE config) (CONF_ORIGIN config)
                 (CONF_DESTINATION config) (CONF_MIN_DISTANCE config);
       http_log := [] |}) as F.
  simpl in F. fold (entity_id_of (CONF_ORIGIN config)) in F.
  fold (entity_id_of (CONF_DESTINATION config)) in F.
  fold (first_update vincenty parse_duration_str w config) in F.
  destruct (fst (first_update vincenty parse_duration_str w config)) as [[]|e];
    simpl.
  - rewrite F.
    destruct (known _ (entity_id_of (CONF_ORIGIN config)));
      destruct (known _ (entity_id_of (CONF_DESTINATION config))); simpl;
      split; try (intros H; now contradiction H); try discriminate;
      try tauto; intros (_ & H1 & H2); discriminate.
  - split; [intros H; now contradiction H | intros (H & _); discriminate].
Qed.

Lemma update_keeps_resolved_locations
      vincenty parse_duration_str (w : World) (m : Mem) :
  locations_kept (resolved w m) (snd (update vincenty parse_duration_str w m)).
Proof.
  rewrite update_unfold.
  destruct (_destination (self (resolved w m))) as [d|];
    [|apply preorder_locations_kept].
  destruct (_origin (self (resolved w m))) as [o|];
    [|apply preorder_locations_kept].
  apply keeps_locations_gate.
Qed.

Lemma resolved_fixed_origin (w : World) (m : Mem) :
  _origin_entity_id (self m) = None ->
  _origin (self (resolved w m)) = _resolve_zone (hass w) (_origin (self m)).
Proof.
  intros Ho. unfold resolved, resolve_locations. run. rewrite Ho. simpl.
  destruct (_destination_entity_id (self m)) as [did|]; simpl; [|reflexivity].
  destruct (_get_location_from_entity_returns (hass w) did m) as [l ->].
  destruct (Host.states_get (hass w) did); reflexivity.
Qed.

(** X14.  A location given as the name of a zone is replaced, at the first
    update, by the coordinates the zone then has, and the sensor keeps these:
    a later update uses them again, wherever the zone is by then, as long as
    no zone is named like the coordinates. *)
Theorem update_fixes_a_zone_name_to_its_coordinates
        vincenty parse_duration_str (w1 w2 : World) (m : Mem)
        (v : string) (z : Host.State) :
  _origin_entity_id (self m) = None ->
  _origin (self m) = Some v ->
  find (zone_named v) (Host.states_all (hass w1)) = Some z ->
  find (zone_named (_get_location_from_attributes z)) (Host.states_all (hass w2))
    = None ->
  let m1 := snd (update vincenty parse_duration_str w1 m) in
  _origin (self m1) = Some (_get_location_from_attributes z) /\
  _origin (self (resolved w2 m1)) = Some (_get_location_from_attributes z).
Proof.
  intros Hoid Ho Hz Hnone m1.
  destruct (update_keeps_resolved_locations vincenty parse_duration_str w1 m)
    as (Ko & _ & Koid & _).
  pose proof (resolved_fixed_origin w1 m Hoid) as Ro.
  destruct (resolved_frame w1 m) as (_ & _ & (_ & _ & _ & _ & _ & Soid & _) & _).
  assert (H1 : _origin (self m1) = Some (_get_location_from_attributes z)).
  { unfold m1. rewrite Ko, Ro, Ho. unfold _resolve_zone.
    now rewrite resolve_zone_loop_find, Hz. }
  split; [exact H1|].
  assert (Hoid1 : _origin_entity_id (self m1) = None)
    by (unfold m1; now rewrite Koid, Soid).
  rewrite (resolved_fixed_origin w2 m1 Hoid1), H1. unfold _resolve_zone.
  now rewrite resolve_zone_loop_find, Hnone.
Qed.

Lemma update_fixes_a_zone_name_to_its_coordinates_witness :
  let m := {| self := new_sensor "n" "id" "code" "Home" "device_tracker.phone" 100;
              http_log := [] |} in
  let moved := {| Host.entity_id := "zone.home"; Host.state := "zoning";
                  Host.attributes := [("friendly_name", Host.AString "Home");
                                      ("latitude", Host.ANumber "40.7");
                                      ("longitude", Host.ANumber "74.0")] |} in
  let w1 := answering [zone_home; phone_at "48.8" "2.3"] (route "PT25M") in
  let w2 := answering [moved; phone_at "48.8" "2.3"] (route "PT25M") in
  _origin (self (snd (upd w1 m))) = Some "52.0,4.0" /\
  _origin (self (resolved w2 (snd (upd w1 m)))) = Some "52.0,4.0".
Proof.
  intros m moved w1 w2.
  apply (update_fixes_a_zone_name_to_its_coordinates
           vincenty_example parse_duration_basic w1 w2 m "Home" zone_home);
    reflexivity.
Defined.

(** X15.  An update leaves the state as it was, or makes it unknown, or
    writes a number of minutes from 0 to 1440: no update publishes more than
    the minutes of one day. *)
Theorem update_writes_minutes_of_a_day
        vincenty parse_duration_str (w : World) (m : Mem) :
  let st := state (self (snd (update vincenty parse_duration_str w m))) in
  st = state (self m) \/ st = None \/ exists n, st = Some n /\ 0 <= n <= 1440.
Proof.
  cbv zeta.
  assert (H : state_step m (snd (update vincenty parse_duration_str w m))).
  { rewrite update_unfold.
    assert (R : state_step m (resolved w m))
      by (left; now destruct (resolved_frame w m) as (Hs & _)).
    destruct (_destination (self (resolved w m))) as [d|]; [|exact R].
    destruct (_origin (self (resolved w m))) as [o|]; [|exact R].
    eapply preorder_state_step; [exact R | apply keeps_state_step_gate]. }
  unfold state. destruct H as [H|H]; [now left|right].
  destruct (_state (self (snd _))) as [n|]; [right; now exists n | now left].
Qed.

(** ** __init__: which locations are entities *)

Lemma digit_is_not_trackable (c : ascii) (s : string) :
  Str.is_digit c = true -> is_trackable (String c s) = false.
Proof.
  intros Hc. unfold is_trackable. simpl.
  assert (Hdot : Ascii.eqb c "."%char = false)
    by (destruct (Ascii.eqb_spec c "."%char) as [->|]; [discriminate|reflexivity]).
  rewrite Hdot. destruct (Str.split1 "."%char s) as [a b]. simpl.
  assert (Hd : Ascii.eqb c "d"%char = false)
    by (destruct (Ascii.eqb_spec c "d"%char) as [->|]; [discriminate|reflexivity]).
  assert (Hs : Ascii.eqb c "s"%char = false)
    by (destruct (Ascii.eqb_spec c "s"%char) as [->|]; [discriminate|reflexivity]).
  assert (Hz : Ascii.eqb c "z"%char = false)
    by (destruct (Ascii.eqb_spec c "z"%char) as [->|]; [discriminate|reflexivity]).
  now rewrite Hd, Hs, Hz.
Qed.

Lemma matched_text_starts_with_a_digit (s : string) :
  COORD_PATTERN_match s <> None ->
  exists c s', s = String c s' /\ Str.is_digit c = true.
Proof.
  unfold COORD_PATTERN_match, match_number.
  destruct s as [|c s']; simpl; [congruence|].
  destruct (Str.is_digit c) eqn:Hc; [eauto|]. simpl. congruence.
Qed.

(** X16.  A location that starts with a coordinate pair is never taken for
    an entity id: the new sensor keeps it as a fixed location and follows no
    entity for it. *)
Theorem coordinates_are_not_an_entity_id
        (name app_id app_code origin destination : string) (min_distance : Z) :
  Spec.coordinates_prefix origin = true ->
  let s := new_sensor name app_id app_code origin destination min_distance in
  _origin_entity_id s = None /\ _origin s = Some origin.
Proof.
  intros H. apply COORD_PATTERN_match_complete in H.
  apply matched_text_starts_with_a_digit in H as (c & s' & -> & Hc).
  simpl. now rewrite (digit_is_not_trackable c s' Hc).
Qed.

Lemma coordinates_are_not_an_entity_id_witness :
  let s := new_sensor "n" "id" "code" "52.1,4.3" "sensor.place" 100 in
  _origin_entity_id s = None /\ _origin s = Some "52.1,4.3".
Proof.
  apply (coordinates_are_not_an_entity_id "n" "id" "code" "52.1,4.3" "sensor.place" 100).
  reflexivity.
Defined.

(** ** The manual update service *)

Lemma option_string_eqb_spec (a b : option string) :
  Bool.reflect (a = b) (option_string_eqb a b).
Proof.
  destruct a as [x|], b as [y|]; simpl; try (constructor; congruence).
  destruct (String.eqb_spec x y); constructor; congruence.
Qed.

(** X17.  The service changes no sensor but those whose entity id is the
    one asked for: the registry keeps its length, its order and its entity
    ids, and every other sensor is as before, whether the handler returns or
    raises. *)
Theorem update_service_leaves_other_sensors
        vincenty parse_duration_str (w : World) (entity_id : option string)
        (registry : list Entry) :
  Forall2 (fun e e' =>
             sensor_entity_id e' = sensor_entity_id e /\
             (sensor_entity_id e <> entity_id -> e' = e))
          registry
          (entries (update_service vincenty parse_duration_str w entity_id registry)).
Proof.
  unfold update_service. generalize (@nil Request) as log.
  induction registry as [|e registry IH]; intros log; simpl; [constructor|].
  assert (Hrefl : Forall2 (fun e e' : Entry =>
             sensor_entity_id e' = sensor_entity_id e /\
             (sensor_entity_id e <> entity_id -> e' = e)) registry registry).
  { clear. induction registry; constructor; auto. }
  destruct (option_string_eqb_spec (sensor_entity_id e) entity_id) as [He|He].
  - destruct (update _ _ _ _) as [[[]|exc] m']; simpl; constructor;
      try (split; [reflexivity | intros H; now contradiction H]);
      [apply IH | exact Hrefl].
  - simpl. constructor; [now split | apply IH].
Qed.

(** X18.  Asked for an entity id that no sensor of the registry has, the
    service returns normally and has done nothing: no sensor is updated, no
    request is sent, no state refresh is scheduled. *)
Theorem update_service_of_an_unknown_entity
        vincenty parse_duration_str (w : World) (entity_id : option string)
        (registry : list Entry) :
  (forall e, In e registry -> sensor_entity_id e <> entity_id) ->
  update_service vincenty parse_duration_str w entity_id registry =
    {| entries := registry; sent := []; scheduled := []; outcome := Ok tt |}.
Proof.
  unfold update_service. generalize (@nil Request) as log.
  induction registry as [|e registry IH]; intros log H; simpl; [reflexivity|].
  destruct (option_string_eqb_spec (sensor_entity_id e) entity_id) as [He|_].
  - exfalso. apply (H e); [now left | exact He].
  - rewrite IH by (intros x Hx; apply H; now right). reflexivity.
Qed.

Lemma update_service_of_an_unknown_entity_witness :
  let s := new_sensor "n" "id" "code" "52.1,4.3" "48.8,2.3" 100 in
  let registry := [{| sensor_entity_id := Some "sensor.here"; sensor := s |};
                   {| sensor_entity_id := None; sensor := s |}] in
  update_service vincenty_example parse_duration_basic
                 (answering [] (route "PT25M")) (Some "sensor.other") registry
  = {| entries := registry; sent := []; scheduled := []; outcome := Ok tt |}.
Proof.
  intros s registry.
  apply (update_service_of_an_unknown_entity vincenty_example parse_duration_basic
           (answering [] (route "PT25M")) (Some "sensor.other") registry).
  intros e [<- | [<- | []]]; discriminate.
Defined.

Lemma update_service_loop_skips vincenty parse_duration_str (w : World)
      (entity_id : option string) (pre rest : list Entry) (log : list Request) :
  (forall x, In x pre -> sensor_entity_id x <> entity_id) ->
  let r := update_service_loop vincenty parse_duration_str w entity_id rest log in
  update_service_loop vincenty parse_duration_str w entity_id (pre ++ rest)%list log
  = {| entries := (pre ++ entries r)%list; sent := sent r;
       scheduled := scheduled r; outcome := outcome r |}.
Proof.
  intros H r. subst r. induction pre as [|x pre IH]; simpl.
  - now destruct (update_service_loop _ _ _ _ rest log).
  - destruct (option_string_eqb_spec (sensor_entity_id x) entity_id) as [Hx|_].
    + exfalso. apply (H x); [now left | exact Hx].
    + rewrite IH by (intros y Hy; apply H; now right). reflexivity.
Qed.

(** X19.  When the update of the sensor asked for raises, the exception
    leaves the service handler: no state refresh is scheduled for that
    sensor, and the sensors after it in the registry are not visited, not
    even one with the same entity id. *)
Theorem update_service_stops_at_an_exception
        vincenty parse_duration_str (w : World) (entity_id : option string)
        (pre post : list Entry) (e : Entry) (exc : exn) :
  (forall x, In x pre -> sensor_entity_id x <> entity_id) ->
  sensor_entity_id e = entity_id ->
  fst (update vincenty parse_duration_str w {| self := sensor e; http_log := [] |})
    = Raise exc ->
  let r := update_service vincenty parse_duration_str w entity_id
                          (pre ++ e :: post)%list in
  outcome r = Raise exc /\ scheduled r = [] /\
  exists e', entries r = (pre ++ e' :: post)%list /\
             sensor_entity_id e' = sensor_entity_id e /\
             state (sensor e') = state (sensor e).
Proof.
  intros Hpre He Hraise r. unfold r, update_service.
  rewrite update_service_loop_skips by exact Hpre. cbv zeta. simpl.
  rewrite He.
  destruct (option_string_eqb_spec entity_id entity_id) as [_|N]; [|now contradiction N].
  pose proof (raising_update_leaves_resolved vincenty parse_duration_str w
                {| self := sensor e; http_log := [] |} exc Hraise) as [_ Hst].
  destruct (update vincenty parse_duration_str w _) as [[[]|exc'] m'];
    simpl in *; [discriminate|].
  injection Hraise as ->. repeat split.
  eexists. repeat split. exact Hst.
Qed.

Lemma update_service_stops_at_an_exception_witness :
  let bad := {| sensor_entity_id := Some "sensor.here";
                sensor := new_sensor "n" "id" "code" "52.1,4.3" "Amsterdam" 100 |} in
  let good := {| sensor_entity_id := Some "sensor.here";
                 sensor := new_sensor "n" "id" "code" "52.1,4.3" "48.8,2.3" 100 |} in
  let r := update_service vincenty_example parse_duration_basic
                          (answering [] (route "PT25M")) (Some "sensor.here")
                          ([] ++ bad :: [good])%list in
  outcome r = Raise AttributeError /\ scheduled r = [] /\
  exists e', entries r = ([] ++ e' :: [good])%list /\
             sensor_entity_id e' = sensor_entity_id bad /\
             state (sensor e') = state (sensor bad).
Proof.
  intros bad good.
  apply (update_service_stops_at_an_exception vincenty_example parse_duration_basic
           (answering [] (route "PT25M")) (Some "sensor.here") [] [good] bad
           AttributeError); try reflexivity.
  intros x [].
Defined.

(** The service at work: the sensor asked for is updated and scheduled. *)
Example update_service_updates_the_sensor :
  let s := new_sensor "n" "id" "code" "52.1,4.3" "48.8,2.3" 100 in
  let r := update_service vincenty_example parse_duration_basic
             (answering [] (route "PT25M")) (Some "sensor.here")
             [{| sensor_entity_id := Some "sensor.here"; sensor := s |}] in
  map (fun e => state (sensor e)) (entries r) = [Some 25] /\
  scheduled r = [Some "sensor.here"] /\ List.length (sent r) = 1%nat /\
  outcome r = Ok tt.
Proof. repeat split. Qed.

(** ** run_setup and the registry *)

Lemma run_setup_event_next vincenty parse_duration_str (w : World)
      (config : Config) (h : HostData) (l : list Sensor) :
  data_key h = Some l ->
  let h' := run_setup_event vincenty parse_duration_str w config h in
  services h' = services h /\
  exists sensor, data_key h' = Some (l ++ [sensor])%list.
Proof.
  intros Hl h'. unfold h', run_setup_event. rewrite Hl. cbv zeta. rewrite Hl.
  simpl. split; [reflexivity|]. eauto.
Qed.

Lemma run_setups_next vincenty parse_duration_str
      (platforms : list (World * Config)) (h : HostData) (l : list Sensor) :
  data_key h = Some l ->
  let h' := run_setups vincenty parse_duration_str platforms h in
  services h' = services h /\
  exists l', data_key h' = Some (l ++ l')%list /\
             List.length l' = List.length platforms.
Proof.
  revert h l. induction platforms as [|[w config] platforms IH]; intros h l Hl; simpl.
  - split; [reflexivity|]. exists []. now rewrite app_nil_r.
  - destruct (run_setup_event_next vincenty parse_duration_str w config h l Hl)
      as [Hs [sensor Hd]].
    destruct (IH _ _ Hd) as [Hs' (l' & Hd' & Hlen)].
    split; [congruence|]. exists (sensor :: l').
    rewrite Hd', <- app_assoc. simpl. auto.
Qed.

(** X20.  However many platforms are set up, the update service is
    registered once, by the first of them, and the registry gets one sensor
    for each platform, also for a platform whose sensor is not handed to the
    host. *)
Theorem run_setups_registers_the_service_once
        vincenty parse_duration_str (w : World) (config : Config)
        (platforms : list (World * Config)) (h : HostData) :
  data_key h = None ->
  let h' := run_setups vincenty parse_duration_str ((w, config) :: platforms) h in
  services h' = (services h ++ ["here_travel_sensor_update"])%list /\
  exists l, data_key h' = Some l /\
            List.length l = S (List.length platforms).
Proof.
  intros Hnone h'. unfold h'. simpl.
  assert (H1 : services (run_setup_event vincenty parse_duration_str w config h)
               = (services h ++ ["here_travel_sensor_update"])%list /\
               exists sensor,
                 data_key (run_setup_event vincenty parse_duration_str w config h)
                 = Some [sensor]).
  { unfold run_setup_event. rewrite Hnone. simpl. eauto. }
  destruct H1 as [Hs [sensor Hd]].
  destruct (run_setups_next vincenty parse_duration_str platforms _ _ Hd)
    as [Hs' (l' & Hd' & Hlen)].
  split; [congruence|]. exists ([sensor] ++ l')%list. split; [exact Hd'|].
  simpl. now rewrite Hlen.
Qed.

Lemma run_setups_registers_the_service_once_witness :
  let h := {| data_key := None; services := []; add_devices_calls := [] |} in
  let h' := run_setups vincenty_example parse_duration_basic
              [(answering [] (route "PT25M"), config "52.1,4.3" "48.8,2.3" None);
               (answering [] (route "PT25M"), config "Amsterdam" "48.8,2.3" None)] h in
  services h' = ([] ++ ["here_travel_sensor_update"])%list /\
  exists l, data_key h' = Some l /\ List.length l = 2%nat.
Proof.
  intros h.
  apply (run_setups_registers_the_service_once vincenty_example parse_duration_basic
           (answering [] (route "PT25M")) (config "52.1,4.3" "48.8,2.3" None)
           [(answering [] (route "PT25M"), config "Amsterdam" "48.8,2.3" None)] h).
  reflexivity.
Defined.

(** ** The minutes of a duration shorter than a day *)

(** X21.  For a response of the expected shape whose duration is from zero
    up to one day, the published number of minutes is within half a minute
    of the duration: its distance to the whole seconds of the duration is at
    most 30 seconds. *)
Theorem update_publishes_nearest_minute_below_a_day
        vincenty parse_duration_str (w : World) (m : Mem)
        (o d : string) (p q : coords) (dist : Q) (response : Response)
        (fields res conns first : list (string * pyval)) (others : list pyval)
        (text : string) (td : timedelta) :
  _origin (self (resolved w m)) = Some o ->
  _destination (self (resolved w m)) = Some d ->
  get_lat_long o = Ok p -> get_lat_long d = Ok q -> vincenty p q = Ok dist ->
  ~ (dist < inject_Z (_min_distance (self m)))%Q ->
  req_get w (request_of w (self m) o d) = Ok (Some response) ->
  json response = Ok (PyDict fields) ->
  assoc "Res" fields = Some (PyDict res) ->
  assoc "Connections" res = Some (PyDict conns) ->
  assoc "Connection" conns = Some (PyList (PyDict first :: others)) ->
  assoc "duration" first = Some (PyStr text) ->
  parse_duration_str text = Ok td ->
  0 <= td_total_seconds td < 86400 ->
  exists n,
    state (self (snd (update vincenty parse_duration_str w m))) = Some n /\
    Z.abs (60 * n - td_total_seconds td) <= 30.
Proof.
  intros Ho Hd Hp Hq Hv Hfar Hreq Hjson H1 H2 H3 H4 Htd Hday.
  destruct (update_publishes_seconds_field vincenty parse_duration_str w m o d p q
              dist response fields res conns first others text td
              Ho Hd Hp Hq Hv Hfar Hreq Hjson H1 H2 H3 H4 Htd) as [_ Hst].
  eexists. split; [exact Hst|].
  rewrite (td_seconds_below_a_day td Hday).
  pose proof (py_round_div_nearest (td_total_seconds td) 60 ltac:(lia)). lia.
Qed.

Lemma update_publishes_nearest_minute_below_a_day_witness :
  let m := {| self := new_sensor "n" "id" "code" "52.1,4.3" "48.8,2.3" 100;
              http_log := [] |} in
  exists n,
    state (self (snd (upd (answering [] (route "PT100S")) m))) = Some n /\
    Z.abs (60 * n - td_total_seconds (mk_timedelta 0 0 0 0 100)) <= 30.
Proof.
  intros m.
  apply (update_publishes_nearest_minute_below_a_day
           vincenty_example parse_duration_basic (answering [] (route "PT100S")) m
           "52.1,4.3" "48.8,2.3" (521 # 10, 43 # 10)%Q (488 # 10, 23 # 10)%Q
           394000%Q {| json := Ok (route "PT100S") |}
           [("Res", PyDict [("Connections",
              PyDict [("Connection", PyList [PyDict [("duration", PyStr "PT100S")]])])])]
           [("Connections",
              PyDict [("Connection", PyList [PyDict [("duration", PyStr "PT100S")]])])]
           [("Connection", PyList [PyDict [("duration", PyStr "PT100S")]])]
           [("duration", PyStr "PT100S")] [] "PT100S" (mk_timedelta 0 0 0 0 100));
    try reflexivity.
  - vm_compute. discriminate.
  - vm_compute. split; [discriminate | reflexivity].
Defined.
